(** * Teaching notebooks: the three pieces of executable logic

    The repository is a set of notebooks.  Three snippets carry behaviour
    that can be stated and proved:

    - [Stats]: [calculate_mean], [normalize] and [standardize] of the
      pytest notebook;
    - [Handler]: the [DataHandler] class of the notebook on instance, class
      and static members;
    - [Scaffold]: [create_folder_structure] of the project-layout notebook.

    Python exceptions are modelled by the type [outcome]; the host
    libraries the snippets call (numpy, pandas, os) are modelled next to
    the function that calls them, from their documented behaviour. *)

From Stdlib Require Import ZArith QArith Ascii String PrimFloat SpecFloat FloatOps.
From stdpp Require Import gmap strings pretty list fin_maps sorting.

Local Open Scope string_scope.

(** ** Exceptions and results *)

(** The exception classes that the modelled snippets can raise.
    [ValueError] carries the message the tests of the notebooks match on,
    [OverflowError] the message of the Python operation that raised it. *)
Inductive exn : Type :=
  | ValueError (msg : string)
  | FileExistsError
  | FileNotFoundError
  | NotADirectoryError
  | IsADirectoryError
  | OverflowError (msg : string).

Inductive outcome (A : Type) : Type :=
  | Return (a : A)
  | Raise (e : exn).
Arguments Return {A} a.
Arguments Raise {A} e.

#[global] Instance exn_eq_dec : EqDecision exn.
Proof. solve_decision. Defined.

(** ** The statistics functions *)

(** The functions compute in IEEE 754 binary64, the arithmetic of Python's
    [float] and of numpy's [float64]: the model uses the primitive floats,
    so that rounding, [nan] and the infinities are those of the program.

    [calculate_mean] is plain Python and takes a list of Python numbers,
    unbounded integers among them.  [normalize] and [standardize] hand
    their list to numpy, which stores it as a [float64] array; their model
    takes the list of these [float64] values: a Python [float] as it is, a
    Python [int] of the [int64] range as its cast [float64 z].  (Larger
    integers make numpy build an array of Python objects, and a list of
    more than 8192 integers alone is summed per buffer of 8192 casts:
    neither is modelled.) *)
Module Stats.

Local Open Scope float_scope.
Local Open Scope list_scope.

(** *** Python numbers *)

Inductive pynum : Type :=
  | PyInt (z : Z)
  | PyFloat (f : float).

(** The [float64] nearest to an integer (ties to even); integers beyond
    the range round to an infinity. *)
Definition float64 (z : Z) : float :=
  SF2Prim (binary_normalize prec emax z 0 false).

(** Python's conversion of an [int] operand of a mixed operation: the
    nearest [float], or [OverflowError] when there is none. *)
Definition float_of_int (z : Z) : outcome float :=
  match binary_normalize prec emax z 0 false with
  | S754_infinity _ => Raise (OverflowError "int too large to convert to float")
  | x => Return (SF2Prim x)
  end.

(** [a + b] of two Python numbers. *)
Definition py_add (a b : pynum) : outcome pynum :=
  match a, b with
  | PyInt x, PyInt y => Return (PyInt (x + y))
  | PyInt x, PyFloat g =>
      match float_of_int x with
      | Return f => Return (PyFloat (f + g))
      | Raise e => Raise e
      end
  | PyFloat f, PyInt y =>
      match float_of_int y with
      | Return g => Return (PyFloat (f + g))
      | Raise e => Raise e
      end
  | PyFloat f, PyFloat g => Return (PyFloat (f + g))
  end.

(** [sum(numbers)]: the elements are added in order to the integer [0]
    (CPython up to 3.11; later versions compensate the rounding of a sum
    of floats). *)
Fixpoint py_sum_from (start : pynum) (numbers : list pynum) : outcome pynum :=
  match numbers with
  | [] => Return start
  | x :: rest =>
      match py_add start x with
      | Return s => py_sum_from s rest
      | Raise e => Raise e
      end
  end.

Definition py_sum (numbers : list pynum) : outcome pynum :=
  py_sum_from (PyInt 0) numbers.

(** [a / b] of two Python integers, [b] positive: the [float] nearest to
    the exact quotient, or [OverflowError] when it is out of range. *)
Definition int_true_divide (a : Z) (b : positive) : outcome float :=
  let q :=
    match a with
    | Z0 => S754_zero false
    | Zpos m => SFdiv prec emax (S754_finite false m 0) (S754_finite false b 0)
    | Zneg m => SFdiv prec emax (S754_finite true m 0) (S754_finite false b 0)
    end in
  match q with
  | S754_infinity _ =>
      Raise (OverflowError "integer division result too large for a float")
  | x => Return (SF2Prim x)
  end.

(** [s / len(numbers)]: the length of a list is positive here, and small
    enough to convert. *)
Definition py_div_len (s : pynum) (n : positive) : outcome float :=
  match s with
  | PyInt z => int_true_divide z n
  | PyFloat f => Return (f / float64 (Zpos n))
  end.

(** [def calculate_mean(numbers)]. *)
Definition calculate_mean (numbers : list pynum) : outcome float :=
  match numbers with
  | [] => Raise (ValueError "The list is empty")
  | _ =>
      match py_sum numbers with
      | Return s => py_div_len s (Pos.of_nat (length numbers))
      | Raise e => Raise e
      end
  end.

(** *** numpy's reductions *)

(** A run of additions in order. *)
Definition sum_from (acc : float) (a : list float) : float :=
  fold_left PrimFloat.add a acc.

(** The eight running sums of numpy's unrolled loop: block after block of
    eight elements is added to them. *)
Fixpoint add_blocks (fuel : nat) (r : list float) (a : list float) : list float :=
  match fuel with
  | O => r
  | S fuel' =>
      match a with
      | [] => r
      | _ => add_blocks fuel' (zip_with PrimFloat.add r (take 8 a)) (drop 8 a)
      end
  end.

(** Between 8 and 128 elements: eight running sums over the blocks of
    eight, added up as a tree, and then the elements left over. *)
Definition block_sum (a : list float) : float :=
  let n := length a in
  let full := (n - n mod 8)%nat in
  match add_blocks n (take 8 a) (take (full - 8) (drop 8 a)) with
  | [r0; r1; r2; r3; r4; r5; r6; r7] =>
      sum_from (((r0 + r1) + (r2 + r3)) + ((r4 + r5) + (r6 + r7))) (drop full a)
  | _ => nan
  end.

(** numpy's pairwise summation of a [float64] array: fewer than eight
    elements are added in order, starting from zero; up to 128 by
    [block_sum]; more are split in two halves, the first of a length that
    is a multiple of eight.  [fuel] bounds the depth of the splitting: the
    length of the array is enough. *)
Fixpoint pairwise_sum (fuel : nat) (a : list float) : float :=
  let n := length a in
  if (n <? 8)%nat then sum_from 0 a
  else if (n <=? 128)%nat then block_sum a
  else
    match fuel with
    | O => nan
    | S fuel' =>
        let n2 := (n / 2 - (n / 2) mod 8)%nat in
        pairwise_sum fuel' (take n2 a) + pairwise_sum fuel' (drop n2 a)
    end.

(** [np.add.reduce(a)]: the pairwise sum, added to the initial zero.
    (Recent versions of numpy start both sums from [-0.0]; the result
    then differs, in the sign of zero only, for an array of negative
    zeros.) *)
Definition np_add_reduce (a : list float) : float :=
  0 + pairwise_sum (length a) a.

(** [np.mean(a)]: the sum divided by the number of elements.  Division by
    zero yields [nan] or an infinity (with a warning), it does not
    raise. *)
Definition np_mean (a : list float) : float :=
  np_add_reduce a / float64 (Z.of_nat (length a)).

(** [np.std(a)] with the default [ddof=0]: the deviations from the mean,
    each multiplied by itself, summed, divided by the number of elements;
    then the square root. *)
Definition np_std (a : list float) : float :=
  let arrmean := np_add_reduce a / float64 (Z.of_nat (length a)) in
  let x := map (fun v => v - arrmean) a in
  let x := map (fun d => d * d) x in
  sqrt (np_add_reduce x / float64 (Z.of_nat (length a))).

(** [def normalize(data)]. *)
Definition normalize (data : list float) : outcome (list float) :=
  match data with
  | [] => Raise (ValueError "Data is empty")
  | _ =>
      let mean := np_mean data in
      let std := np_std data in
      Return (map (fun x => (x - mean) / std) data)
  end.

(** [def standardize(numbers)]. *)
Definition standardize (numbers : list float) : outcome (list float) :=
  match numbers with
  | [] => Raise (ValueError "The list is empty")
  | _ =>
      let mean := np_mean numbers in
      let std_dev := np_std numbers in
      Return (map (fun x => (x - mean) / std_dev) numbers)
  end.

(** *** What the tests compute on the result *)



(** The fixture [sample_data] of the notebook's tests: a list of Python
    integers. *)
Definition sample_data : list Z := [1; 2; 3; 4; 5]%Z.

(** *** Small integer data *)





(** *** The spec's words, for comparison *)




(** The exact value of a finite [float64] number. *)
Definition exact (f : float) : option Q :=
  match Prim2SF f with
  | S754_zero _ => Some (inject_Z 0)
  | S754_finite s m e =>
      Some (Qmult (inject_Z (if s then Zneg m else Zpos m)) (Qpower (inject_Z 2) e))
  | _ => None
  end.



End Stats.

(** ** The [DataHandler] class *)
Module Handler.
Local Open Scope list_scope.

(** The values a record's fields hold in the notebook: strings and
    integers. *)
Inductive pyval : Type :=
  | PyStr (s : string)
  | PyInt (z : Z).

Definition label : Type := string.

(** *** pandas, as far as [add_record] uses it *)

(** A [pd.Series]: values and their index labels, of equal length. *)
Record Series : Type := { s_values : list pyval; s_index : list label }.

(** A [pd.DataFrame]: column labels and rows; [len(df)] is the number of
    rows. *)
Record DataFrame : Type := { columns : list label; rows : list (list pyval) }.

Definition length_mismatch (values index : nat) : string :=
  "Length of values (" +:+ pretty values +:+
  ") does not match length of index (" +:+ pretty index +:+ ")".

(** [pd.Series(data, index=index)] for a list [data]: pandas requires as
    many values as index labels and raises [ValueError] otherwise. *)
Definition pd_Series (data : list pyval) (index : list label) : outcome Series :=
  if decide (length data = length index)
  then Return {| s_values := data; s_index := index |}
  else Raise (ValueError (length_mismatch (length data) (length index))).

(** [df.append(other, ignore_index=True)] (pandas before 2.0) for a Series
    [other] indexed by the columns of [df], which is the only way
    [add_record] calls it: no label is new, so the columns stay and the
    values of [other] become the last row of a new frame.  [df] itself is
    not modified. *)
Definition DataFrame_append (df : DataFrame) (other : Series) : DataFrame :=
  {| columns := columns df; rows := rows df ++ [s_values other] |}.

(** [pd.DataFrame(columns=columns)]: a frame without rows. *)
Definition pd_DataFrame (columns : list label) : DataFrame :=
  {| columns := columns; rows := [] |}.

(** *** The class *)

(** The state of the class object: its one class attribute, shared by
    every instance and rebound by [set_default_columns]. *)
Record DataHandlerClass : Type := { default_columns : list label }.

(** The class as its definition leaves it:
    [default_columns = ['name', 'age', 'salary']]. *)
Definition DataHandler_class : DataHandlerClass :=
  {| default_columns := ["name"; "age"; "salary"] |}.

(** The state of an instance: its one instance attribute. *)
Record DataHandler : Type := { data : DataFrame }.

(** [def __init__(self, data)]. *)
Definition init (data : DataFrame) : DataHandler := {| data := data |}.

(** [@staticmethod def validate_record(record)]: it reads the class
    attribute through the class, never an instance. *)
Definition validate_record (cls : DataHandlerClass) (record : list pyval) : bool :=
  Nat.eqb (length record) (length (default_columns cls)).

(** [@classmethod def set_default_columns(cls, columns)]. *)
Definition set_default_columns (cls : DataHandlerClass) (columns : list label)
  : DataHandlerClass :=
  {| default_columns := columns |}.

Definition wrong_number_of_columns : string :=
  "Record does not have the correct number of columns".

(** [def add_record(self, record)]: the result and the instance after the
    call.  [self.data] is rebound only by the last statement of the first
    branch, so an exception leaves the instance as it was. *)
Definition add_record (cls : DataHandlerClass) (self : DataHandler)
    (record : list pyval) : outcome () * DataHandler :=
  if validate_record cls record then
    match pd_Series record (columns (data self)) with
    | Return new_row =>
        (Return (), {| data := DataFrame_append (data self) new_row |})
    | Raise e => (Raise e, self)
    end
  else (Raise (ValueError wrong_number_of_columns), self).

(** *** The example of the notebook *)

(** [handler = DataHandler(pd.DataFrame(columns=DataHandler.default_columns))]:
    a handler over an empty three-column frame. *)
Definition example_handler : DataHandler :=
  init (pd_DataFrame (default_columns DataHandler_class)).

Definition alice : list pyval := [PyStr "Alice"; PyInt 30; PyInt 70000].
Definition bob : list pyval := [PyStr "Bob"; PyInt 25; PyInt 60000; PyStr "HR"].

(** The class after
    [DataHandler.set_default_columns(['name', 'age', 'salary', 'department'])]. *)
Definition four_columns : DataHandlerClass :=
  set_default_columns DataHandler_class ["name"; "age"; "salary"; "department"].

(** *** Rectangular tables *)

(** A frame is rectangular when every row has one value per column. *)
Definition rectangular (df : DataFrame) : Prop :=
  Forall (λ row, length row = length (columns df)) (rows df).

End Handler.

(** ** The folder scaffold *)
Module Scaffold.
Local Open Scope list_scope.

(** *** The file system *)

(** A path is the list of its components below the directory the
    notebook runs in; paths are normalised (no empty, [.] or [..]
    component, no symbolic links). *)
Abbreviation path := (list string).

Inductive node : Type :=
  | Dir
  | File (content : string).

#[global] Instance node_eq_dec : EqDecision node.
Proof. solve_decision. Defined.

(** The file system: what exists at each path. *)
Abbreviation filesystem := (gmap (list string) node).

(** What a path names.  The empty path is the starting directory, which
    exists. *)
Definition lookup_path (s : filesystem) (p : path) : option node :=
  match p with
  | [] => Some Dir
  | _ => s !! p
  end.

(** [os.path.exists], [os.path.isdir] and [os.path.isfile]. *)
Definition os_path_exists (s : filesystem) (p : path) : bool :=
  match lookup_path s p with Some _ => true | None => false end.

Definition os_path_isdir (s : filesystem) (p : path) : bool :=
  match lookup_path s p with Some Dir => true | _ => false end.

Definition os_path_isfile (s : filesystem) (p : path) : bool :=
  match lookup_path s p with Some (File _) => true | _ => false end.

(** The components of a relative path written with [/]. *)
Fixpoint components_from (cur : string) (s : string) : list string :=
  match s with
  | EmptyString => [cur]
  | String c s' =>
      if Ascii.eqb c "/"%char then cur :: components_from "" s'
      else components_from (cur +:+ String c "") s'
  end.

Definition components (s : string) : path :=
  filter (λ c, c ≠ "") (components_from "" s).

(** [os.path.join(base_path, rel)] for a relative [rel]. *)
Definition os_path_join (base_path : path) (rel : string) : path :=
  base_path ++ components rel.

(** The head of [os.path.split]: the path without its last component. *)
Definition dirname (p : path) : path := removelast p.

(** [os.mkdir(name)].  The system resolves the parent first, then refuses
    a name that exists. *)
Definition os_mkdir (name : path) (s : filesystem) : outcome () * filesystem :=
  match lookup_path s (dirname name) with
  | None => (Raise FileNotFoundError, s)
  | Some (File _) => (Raise NotADirectoryError, s)
  | Some Dir =>
      match lookup_path s name with
      | Some _ => (Raise FileExistsError, s)
      | None => (Return (), <[name := Dir]> s)
      end
  end.

(** The last statement of [os.makedirs]:
    [try: mkdir(name) except OSError: if not exist_ok or not isdir(name): raise]. *)
Definition mkdir_exist_ok (exist_ok : bool) (name : path) (s : filesystem)
  : outcome () * filesystem :=
  match os_mkdir name s with
  | (Raise e, s') =>
      if negb exist_ok || negb (os_path_isdir s' name) then (Raise e, s')
      else (Return (), s')
  | r => r
  end.

(** [os.makedirs], by recursion on the path read from its leaf: [rname] is
    the reversed path, its first element the [tail] of [os.path.split] and
    the rest the reversed [head].  A missing [head] is created first, and a
    [FileExistsError] of that recursive call is passed over.  Paths being
    normalised, [tail] is never the current-directory name, for which
    [os.makedirs] returns early. *)
Fixpoint makedirs_from_leaf (rname : list string) (exist_ok : bool) (s : filesystem)
  : outcome () * filesystem :=
  match rname with
  | [] => mkdir_exist_ok exist_ok [] s
  | tail :: rhead =>
      let head := rev rhead in
      let name := head ++ [tail] in
      if negb (bool_decide (head = [])) && negb (os_path_exists s head) then
        match makedirs_from_leaf rhead exist_ok s with
        | (Raise e, s1) =>
            if decide (e = FileExistsError) then mkdir_exist_ok exist_ok name s1
            else (Raise e, s1)
        | (Return _, s1) => mkdir_exist_ok exist_ok name s1
        end
      else mkdir_exist_ok exist_ok name s
  end.

(** [os.makedirs(name, exist_ok=exist_ok)]. *)
Definition os_makedirs (name : path) (exist_ok : bool) (s : filesystem)
  : outcome () * filesystem :=
  makedirs_from_leaf (rev name) exist_ok s.

(** [open(name, 'a').close()]: creates an empty file when there is none,
    and leaves an existing file as it is. *)
Definition open_append_close (name : path) (s : filesystem)
  : outcome () * filesystem :=
  match lookup_path s (dirname name) with
  | None => (Raise FileNotFoundError, s)
  | Some (File _) => (Raise NotADirectoryError, s)
  | Some Dir =>
      match lookup_path s name with
      | Some Dir => (Raise IsADirectoryError, s)
      | Some (File _) => (Return (), s)
      | None => (Return (), <[name := File ""]> s)
      end
  end.

(** *** The script *)

(** A [for] loop whose body may raise: the first exception ends it. *)
Fixpoint for_each {A : Type} (body : A → filesystem → outcome () * filesystem)
    (l : list A) (s : filesystem) : outcome () * filesystem :=
  match l with
  | [] => (Return (), s)
  | x :: l' =>
      match body x s with
      | (Return _, s1) => for_each body l' s1
      | (Raise e, s1) => (Raise e, s1)
      end
  end.

Definition folders : list string :=
  [ "data/external"; "data/interim"; "data/processed"; "data/raw";
    "envs";
    "docs";
    "models";
    "notebooks";
    "references";
    "reports/figures";
    "src";
    "src/modeling" ].

Definition files : list string :=
  [ "LICENSE"; "Makefile"; "README.md";
    "envs/.dev_env"; "envs/.prod_env"; "envs/.dev2_env";
    "envs/dev_req.txt"; "envs/prod_req.txt"; "envs/dev2_req.txt";
    "src/__init__.py"; "src/config.py"; "src/dataset.py";
    "src/features.py"; "src/modeling/__init__.py";
    "src/modeling/predict.py"; "src/modeling/train.py";
    "src/plots.py" ].

(** [def create_folder_structure(base_path)]. *)
Definition create_folder_structure (base_path : path) (s : filesystem)
  : outcome () * filesystem :=
  match
    for_each (λ folder, os_makedirs (os_path_join base_path folder) true) folders s
  with
  | (Return _, s1) =>
      for_each (λ file, open_append_close (os_path_join base_path file)) files s1
  | (Raise e, s1) => (Raise e, s1)
  end.

(** *** Vocabulary of the statements *)

(** The three ways the guarded [mkdir] of [os.makedirs] can end. *)
Inductive mkdir_result (name : path) (s : filesystem)
  : outcome () * filesystem → Prop :=
  | mkdir_created :
      lookup_path s (dirname name) = Some Dir →
      lookup_path s name = None →
      mkdir_result name s (Return (), <[name := Dir]> s)
  | mkdir_tolerated :
      lookup_path s name = Some Dir →
      mkdir_result name s (Return (), s)
  | mkdir_raised e :
      os_path_isdir s name = false →
      (e = FileExistsError → is_Some (lookup_path s name)) →
      mkdir_result name s (Raise e, s).

(** A command on the file system is repeatable when it keeps what exists,
    when a run that returned also returns, changing nothing, in every later
    state, and when a run that raised raises the same again, changing
    nothing, in the state it left. *)
Record repeatable (c : filesystem → outcome () * filesystem) : Prop := {
  rep_grows : ∀ s, s ⊆ (c s).2;
  rep_returned : ∀ s s' t, c s = (Return (), s') → s' ⊆ t → c t = (Return (), t);
  rep_raised : ∀ s s' e, c s = (Raise e, s') → c s' = (Raise e, s');
}.

(** Nothing is in the way of the script: no regular file at a directory
    it needs, and no directory where it opens a file. *)
Definition unobstructed (base_path : path) (s : filesystem) : Prop :=
  (∀ folder q, folder ∈ folders →
     q `prefix_of` os_path_join base_path folder → os_path_isfile s q = false) ∧
  (∀ file, file ∈ files → os_path_isdir s (os_path_join base_path file) = false).

(** A file system is a tree: whatever exists lies in a directory. *)
Definition well_formed (s : filesystem) : Prop :=
  ∀ p n, s !! p = Some n → lookup_path s (dirname p) = Some Dir.

End Scaffold.

(** ** The data-processing classes *)

(** The exceptions of the notebooks on classes: the two the interpreter
    raises itself, and whatever a library call raises. *)
Inductive pyerror : Type :=
  | AttributeError (msg : string)
  | TypeError (msg : string)
  | LibraryError (e : exn).

Inductive result (A : Type) : Type :=
  | Done (a : A)
  | Raised (e : pyerror).
Arguments Done {A} a.
Arguments Raised {A} e.

Module Pipeline.
Local Open Scope list_scope.

(** *** pandas frames with missing values *)

(** A cell of a frame; [NaN] is a missing value ([None] becomes [NaN] when
    pandas builds a column). *)
Inductive cell : Type :=
  | Num (z : Z)
  | Str (s : string)
  | Bool (b : bool)
  | NaN.

#[global] Instance cell_eq_dec : EqDecision cell.
Proof. solve_decision. Defined.

(** A frame: the column labels, and the rows, each with its index label. *)
Record Frame : Type := { columns : list string; rows : list (nat * list cell) }.

(** [df.dropna()] with its defaults ([axis=0], [how='any']): the rows
    without a missing value, in their order and under their labels. *)
Definition dropna (df : Frame) : Frame :=
  {| columns := columns df; rows := filter (λ r, NaN ∉ r.2) (rows df) |}.

(** [df[key] = value] for a scalar [value]: every column labelled [key] is
    filled with [value]; when there is none, a column [key] is added at the
    end. *)
Definition setitem (key : string) (value : cell) (df : Frame) : Frame :=
  if decide (key ∈ columns df) then
    {| columns := columns df;
       rows := map (λ r, (r.1, imap (λ i x, if decide (columns df !! i = Some key)
                                            then value else x) r.2))
                   (rows df) |}
  else
    {| columns := columns df ++ [key];
       rows := map (λ r, (r.1, r.2 ++ [value])) (rows df) |}.

(** A frame is rectangular when every row has one cell per column. *)
Definition rectangular (df : Frame) : Prop :=
  Forall (λ r, length r.2 = length (columns df)) (rows df).

(** *** [DataProcessor.clean_data] of the notebook on class members *)

(** [@staticmethod def clean_data(data): return data.dropna()]. *)
Definition clean_data (data : Frame) : Frame := dropna data.

(** *** [CSVDataProcessor] of the notebook on abstraction *)

(** The instance: [self._data], [None] until data is read. *)
Record CSVDataProcessor : Type := { _data : option Frame }.

(** [DataProcessor.__init__]: [self._data = None]. *)
Definition init : CSVDataProcessor := {| _data := None |}.

(** [def get_data(self): return self._data]. *)
Definition get_data (self : CSVDataProcessor) : option Frame := _data self.

(** [def read_data(self, source): self._data = pd.read_csv(source)].
    [pd.read_csv], with the file system and the parser behind it, is a
    parameter; with [pd.read_json] for it, the class is the
    [JSONDataProcessor] of the exercise's solution, whose other methods are
    the same. *)
Definition read_data (read_csv : string → result Frame)
    (self : CSVDataProcessor) (source : string) : result () * CSVDataProcessor :=
  match read_csv source with
  | Done df => (Done (), {| _data := Some df |})
  | Raised e => (Raised e, self)
  end.

(** [def _clean_data(self): self._data.dropna(inplace=True)]. *)
Definition _clean_data (self : CSVDataProcessor) : result () * CSVDataProcessor :=
  match _data self with
  | Some df => (Done (), {| _data := Some (dropna df) |})
  | None =>
      (Raised (AttributeError "'NoneType' object has no attribute 'dropna'"), self)
  end.

(** [def _transform_data(self): self._data['processed'] = True]. *)
Definition _transform_data (self : CSVDataProcessor)
  : result () * CSVDataProcessor :=
  match _data self with
  | Some df => (Done (), {| _data := Some (setitem "processed" (Bool true) df) |})
  | None =>
      (Raised (TypeError "'NoneType' object does not support item assignment"), self)
  end.

(** [def process_data(self): self._clean_data(); self._transform_data()]. *)
Definition process_data (self : CSVDataProcessor) : result () * CSVDataProcessor :=
  match _clean_data self with
  | (Done _, self1) => _transform_data self1
  | (Raised e, self1) => (Raised e, self1)
  end.

(** The frame of the notebook on class members:
    [pd.DataFrame({'age': [25, 30, 35, 40, None], 'salary': [50000, ...]})]. *)
Definition example_data : Frame :=
  {| columns := ["age"; "salary"];
     rows := [ (0, [Num 25; Num 50000]); (1, [Num 30; Num 60000]);
               (2, [Num 35; Num 70000]); (3, [Num 40; Num 80000]);
               (4, [NaN; Num 90000]) ] |}.

End Pipeline.

(** ** Abstract classes *)
Module Abstract.
Local Open Scope list_scope.

(** A function defined in a class body, with or without
    [@abstractmethod].  What the function does plays no part in whether
    the class can be instantiated. *)
Inductive definition : Type :=
  | Concrete
  | AbstractMethod.

#[global] Instance definition_eq_dec : EqDecision definition.
Proof. solve_decision. Defined.

(** A class: [object], or a class statement with its name, its base
    class and the definitions of its body in their order.  The methods of
    [object] are not abstract and are left out. *)
Inductive pyclass : Type :=
  | object
  | Class (name : string) (base : pyclass) (body : list (string * definition)).

Definition class_name (cls : pyclass) : string :=
  match cls with object => "object" | Class name _ _ => name end.

(** What a name is bound to once the class body has run: the last
    definition under that name. *)
Fixpoint bound (body : list (string * definition)) (n : string)
  : option definition :=
  match body with
  | [] => None
  | (m, d) :: body' =>
      match bound body' n with
      | Some d' => Some d'
      | None => if decide (m = n) then Some d else None
      end
  end.

(** [getattr(cls, n, None)]: the class's own binding, else the base
    class's. *)
Fixpoint getattr (cls : pyclass) (n : string) : option definition :=
  match cls with
  | object => None
  | Class _ base body =>
      match bound body n with
      | Some d => Some d
      | None => getattr base n
      end
  end.

(** [cls.__abstractmethods__], as [ABCMeta.__new__] computes it: the names
    the body binds to an abstract method, and the abstract names of the
    base class that still resolve to an abstract method. *)
Fixpoint abstractmethods (cls : pyclass) : gset string :=
  match cls with
  | object => ∅
  | Class _ base body =>
      filter (λ n, bound body n = Some AbstractMethod) (list_to_set body.*1)
      ∪ filter (λ n, getattr cls n = Some AbstractMethod) (abstractmethods base)
  end.

Definition string_le (a b : string) : Prop := String.leb a b = true.

#[global] Instance string_le_dec : RelDecision string_le.
Proof. intros a b. unfold string_le. apply _. Defined.

Definition quoted (n : string) : string := "'" +:+ n +:+ "'".

Record instance : Type := { class_of : pyclass }.

(** [cls()]: [object.__new__] refuses a class that has abstract methods
    left, naming them in sorted order (the wording of Python 3.12). *)
Definition instantiate (cls : pyclass) : result instance :=
  match merge_sort string_le (elements (abstractmethods cls)) with
  | [] => Done {| class_of := cls |}
  | missing =>
      Raised (TypeError
        ("Can't instantiate abstract class " +:+ class_name cls +:+
         " without an implementation for abstract method" +:+
         (if decide (1 < length missing) then "s" else "") +:+ " " +:+
         String.concat ", " (map quoted missing)))
  end.

(** [class ABC(metaclass=ABCMeta)] of the [abc] module. *)
Definition ABC : pyclass := Class "ABC" object [].

(** The three classes of the notebook on abstraction. *)
Definition DataProcessor : pyclass :=
  Class "DataProcessor" ABC
    [("read_data", AbstractMethod); ("process_data", AbstractMethod)].

Definition ExcelDataProcessor : pyclass :=
  Class "ExcelDataProcessor" DataProcessor [].

Definition CSVDataProcessor : pyclass :=
  Class "CSVDataProcessor" DataProcessor
    [("read_data", Concrete); ("process_data", Concrete)].

(** The abstract class of the pipeline example, and the
    [JSONDataProcessor] of the exercise's solution. *)
Definition PipelineDataProcessor : pyclass :=
  Class "DataProcessor" ABC
    [("__init__", Concrete); ("read_data", AbstractMethod);
     ("process_data", AbstractMethod); ("get_data", Concrete)].

Definition JSONDataProcessor : pyclass :=
  Class "JSONDataProcessor" PipelineDataProcessor
    [("read_data", Concrete); ("process_data", Concrete);
     ("_clean_data", Concrete); ("_transform_data", Concrete)].

End Abstract.
(** * Facts about the statistics functions *)
Module StatsFacts.
Import Stats.
Local Open Scope float_scope.
Local Open Scope list_scope.

(** ** Which exceptions the Python arithmetic raises *)

Lemma float_of_int_raise (z : Z) (e : exn) :
  float_of_int z = Raise e → ∃ msg, e = OverflowError msg.
Proof.
  unfold float_of_int.
  destruct (binary_normalize prec emax z 0 false); intros H; inversion H; eauto.
Qed.

Lemma py_add_raise (a b : pynum) (e : exn) :
  py_add a b = Raise e → ∃ msg, e = OverflowError msg.
Proof.
  destruct a as [x|f], b as [y|g]; simpl; try discriminate.
  - destruct (float_of_int x) eqn:E; intros H; inversion H; subst.
    eapply float_of_int_raise, E.
  - destruct (float_of_int y) eqn:E; intros H; inversion H; subst.
    eapply float_of_int_raise, E.
Qed.

Lemma py_sum_from_raise (numbers : list pynum) (start : pynum) (e : exn) :
  py_sum_from start numbers = Raise e → ∃ msg, e = OverflowError msg.
Proof.
  revert start. induction numbers as [|x rest IH]; intros start; simpl.
  - discriminate.
  - destruct (py_add start x) eqn:E.
    + apply IH.
    + intros H; inversion H; subst. eapply py_add_raise, E.
Qed.

Lemma int_true_divide_raise (a : Z) (b : positive) (e : exn) :
  int_true_divide a b = Raise e → ∃ msg, e = OverflowError msg.
Proof.
  unfold int_true_divide. cbv zeta.
  destruct (match a with Z0 => _ | Zpos m => _ | Zneg m => _ end);
    intros H; inversion H; eauto.
Qed.

Lemma calculate_mean_raise (numbers : list pynum) (e : exn) :
  numbers ≠ [] → calculate_mean numbers = Raise e → ∃ msg, e = OverflowError msg.
Proof.
  destruct numbers as [|x rest]; [done|]. intros _.
  unfold calculate_mean.
  destruct (py_sum (x :: rest)) as [s|e'] eqn:E.
  - destruct s as [z|f]; simpl.
    + apply int_true_divide_raise.
    + discriminate.
  - intros H; inversion H; subst. eapply py_sum_from_raise, E.
Qed.

(** ** Sums of integers and of floats *)

Lemma py_sum_from_ints (zs : list Z) (start : Z) :
  py_sum_from (PyInt start) (map PyInt zs) = Return (PyInt (fold_left Z.add zs start)).
Proof.
  revert start. induction zs as [|z zs IH]; intros start; simpl; [done|].
  apply IH.
Qed.

Lemma fold_left_Zadd_acc (zs : list Z) (a : Z) :
  fold_left Z.add zs a = (a + fold_left Z.add zs 0)%Z.
Proof.
  revert a. induction zs as [|z zs IH]; intros a; simpl; [lia|].
  rewrite (IH (a + z)%Z), (IH (0 + z)%Z). lia.
Qed.

Lemma fold_left_Zadd_perm (zs zs' : list Z) :
  zs ≡ₚ zs' → fold_left Z.add zs 0%Z = fold_left Z.add zs' 0%Z.
Proof.
  induction 1 as [|x l l' _ IH|x y l|l l' l'' _ IH1 _ IH2]; simpl.
  - done.
  - rewrite (fold_left_Zadd_acc l), (fold_left_Zadd_acc l'), IH. done.
  - rewrite (fold_left_Zadd_acc l (0 + y + x)), (fold_left_Zadd_acc l (0 + x + y)). lia.
  - congruence.
Qed.

Lemma calculate_mean_ints (zs : list Z) :
  zs ≠ [] →
  calculate_mean (map PyInt zs)
  = int_true_divide (fold_left Z.add zs 0%Z) (Pos.of_nat (length zs)).
Proof.
  destruct zs as [|z zs]; [done|]. intros _.
  unfold calculate_mean, py_sum.
  change (map PyInt (z :: zs)) with (PyInt z :: map PyInt zs) at 1.
  cbv iota.
  rewrite (py_sum_from_ints (z :: zs)), length_map. done.
Qed.

Lemma py_sum_from_floats (fs : list float) (start : float) :
  py_sum_from (PyFloat start) (map PyFloat fs)
  = Return (PyFloat (fold_left PrimFloat.add fs start)).
Proof.
  revert start. induction fs as [|f fs IH]; intros start; simpl; [done|].
  apply IH.
Qed.

(** ** numpy's reductions on short arrays *)







(** ** Enumerating small data *)




(** ** The claims *)

(** C5.  Each of the three functions raises its [ValueError], with its
    descriptive message, exactly on the empty sequence: on [[]] it raises
    it, and on no other input does it raise a [ValueError] at all.  (On a
    non-empty list of numbers [calculate_mean] can still raise the
    [OverflowError] of Python's integer arithmetic.) *)
Theorem raise_iff_empty :
  (∀ numbers msg,
     calculate_mean numbers = Raise (ValueError msg)
     ↔ numbers = [] ∧ msg = "The list is empty"%string) ∧
  (∀ data msg,
     normalize data = Raise (ValueError msg)
     ↔ data = [] ∧ msg = "Data is empty"%string) ∧
  (∀ numbers msg,
     standardize numbers = Raise (ValueError msg)
     ↔ numbers = [] ∧ msg = "The list is empty"%string).
Proof.
  split; [|split].
  - intros numbers msg. split.
    + destruct numbers as [|x rest].
      * simpl. by intros [= <-].
      * intros H. apply calculate_mean_raise in H as [msg' H]; done.
    + by intros [-> ->].
  - intros [|x rest] msg; simpl; split.
    + by intros [= <-].
    + by intros [_ ->].
    + discriminate.
    + by intros [? _].
  - intros [|x rest] msg; simpl; split.
    + by intros [= <-].
    + by intros [_ ->].
    + discriminate.
    + by intros [? _].
Qed.

(** The tests of [calculate_mean]. *)
Example test_calculate_mean :
  calculate_mean (map PyInt [1; 2; 3]%Z) = Return 2.
Proof. vm_compute. reflexivity. Qed.

Example test_calculate_mean_with_fixture :
  calculate_mean (map PyInt sample_data) = Return 3.
Proof. vm_compute. reflexivity. Qed.

(** Integers beyond the range of [float]: the sum is exact, the division
    raises; with a float in the list the conversion raises. *)
Example calculate_mean_overflow :
  calculate_mean [PyInt (10 ^ 400)]
  = Raise (OverflowError "integer division result too large for a float") ∧
  calculate_mean [PyInt (10 ^ 400); PyInt (- 10 ^ 400); PyInt 3] = Return 1 ∧
  calculate_mean [PyFloat 1; PyInt (10 ^ 400)]
  = Raise (OverflowError "int too large to convert to float").
Proof. repeat split; vm_compute; reflexivity. Qed.







(** The result on the fixture. *)
Example standardize_sample_data :
  standardize (map float64 sample_data)
  = Return [-0x1.6a09e667f3bccp+0; -0x1.6a09e667f3bccp-1; 0;
            0x1.6a09e667f3bccp-1; 0x1.6a09e667f3bccp+0].
Proof. vm_compute. reflexivity. Qed.

(** ** Further properties *)

(** X2.  [normalize] and [standardize] are the same function on every
    non-empty list; on the empty list they raise different messages. *)
Theorem normalize_standardize_iff (data : list float) :
  normalize data = standardize data ↔ data ≠ [].
Proof. destruct data; simpl; split; done. Qed.

(** X17.  On a list of integers [calculate_mean] does not depend on the
    order of the elements: the sum of Python integers is exact, and the
    quotient is rounded once. *)
Theorem calculate_mean_ints_permutation (zs zs' : list Z) :
  zs ≡ₚ zs' →
  calculate_mean (map PyInt zs) = calculate_mean (map PyInt zs').
Proof.
  intros Hp. destruct zs as [|z zs].
  - apply Permutation_nil_l in Hp. by subst.
  - assert (zs' ≠ []) as Hne'.
    { intros ->. by apply Permutation_nil_r in Hp. }
    rewrite !calculate_mean_ints by done.
    by rewrite (fold_left_Zadd_perm _ _ Hp), (Permutation_length Hp).
Qed.

Lemma calculate_mean_ints_permutation_witness :
  calculate_mean (map PyInt [1; 2]%Z) = calculate_mean (map PyInt [2; 1]%Z).
Proof. apply (calculate_mean_ints_permutation [1; 2]%Z [2; 1]%Z). apply perm_swap. Defined.

(** X18.  On a non-empty list of floats [calculate_mean] returns: the
    floats added in order to zero, divided by the length. *)
Theorem calculate_mean_floats (fs : list float) :
  fs ≠ [] →
  calculate_mean (map PyFloat fs)
  = Return (PrimFloat.div (fold_left PrimFloat.add fs 0)
                          (float64 (Z.of_nat (length fs)))).
Proof.
  destruct fs as [|f fs]; [done|]. intros _.
  unfold calculate_mean, py_sum.
  change (map PyFloat (f :: fs)) with (PyFloat f :: map PyFloat fs).
  cbv iota. cbn [py_sum_from py_add].
  change (float_of_int 0) with (Return 0).
  cbv iota. rewrite py_sum_from_floats. cbn [py_div_len fold_left].
  rewrite length_cons, length_map, <- Pos.of_nat_succ.
  reflexivity.
Qed.

Lemma calculate_mean_floats_witness :
  calculate_mean (map PyFloat [0x1.999999999999ap-4; 0x1.999999999999ap-4; 0x1.999999999999ap-4])
  = Return (PrimFloat.div
              (fold_left PrimFloat.add
                 [0x1.999999999999ap-4; 0x1.999999999999ap-4; 0x1.999999999999ap-4] 0)
              (float64 (Z.of_nat 3))).
Proof.
  apply (calculate_mean_floats
           [0x1.999999999999ap-4; 0x1.999999999999ap-4; 0x1.999999999999ap-4]).
  discriminate.
Defined.

(** Rounding in [calculate_mean]: the mean of three times [0.1] is not
    [0.1]. *)
Example calculate_mean_rounds :
  calculate_mean (map PyFloat [0x1.999999999999ap-4; 0x1.999999999999ap-4; 0x1.999999999999ap-4])
  = Return 0x1.999999999999bp-4.
Proof. vm_compute. reflexivity. Qed.

End StatsFacts.

(** * Facts about [DataHandler] *)
Module HandlerFacts.
Import Handler.
Local Open Scope list_scope.

Example add_alice :
  add_record DataHandler_class example_handler alice
  = (Return (), {| data := {| columns := ["name"; "age"; "salary"]; rows := [alice] |} |}).
Proof. reflexivity. Qed.

Example validate_bob :
  validate_record DataHandler_class bob = false ∧
  validate_record four_columns bob = true.
Proof. split; reflexivity. Qed.

Lemma pd_Series_same_length (record : list pyval) (index : list label) :
  length record = length index →
  pd_Series record index = Return {| s_values := record; s_index := index |}.
Proof. intros H. unfold pd_Series. by rewrite decide_True. Qed.

Lemma pd_Series_other_length (record : list pyval) (index : list label) :
  length record ≠ length index →
  pd_Series record index
  = Raise (ValueError (length_mismatch (length record) (length index))).
Proof. intros H. unfold pd_Series. by rewrite decide_False. Qed.

(** C2: [validate_record] returns true exactly when the record has as many
    fields as there are declared columns. *)
Theorem validate_record_iff (cls : DataHandlerClass) (record : list pyval) :
  validate_record cls record = true ↔ length record = length (default_columns cls).
Proof. unfold validate_record. apply Nat.eqb_eq. Qed.

(** C3: adding a record whose number of fields differs from the declared
    number of columns raises the [ValueError] of [add_record] and leaves
    the handler, and with it its table, as it was. *)
Theorem add_record_invalid (cls : DataHandlerClass) (self : DataHandler)
    (record : list pyval) :
  length record ≠ length (default_columns cls) →
  add_record cls self record = (Raise (ValueError wrong_number_of_columns), self).
Proof.
  intros H. unfold add_record, validate_record.
  by rewrite (proj2 (Nat.eqb_neq _ _) H).
Qed.

Lemma add_record_invalid_witness :
  add_record DataHandler_class example_handler bob
  = (Raise (ValueError wrong_number_of_columns), example_handler).
Proof. apply (add_record_invalid DataHandler_class example_handler bob). simpl. lia. Defined.

(** C4, as stated, fails once the class attribute no longer matches the
    table: the record is valid, yet the append raises and the table keeps
    its rows. *)
Lemma add_record_valid_fails :
  validate_record four_columns bob = true ∧
  add_record four_columns example_handler bob
  = (Raise (ValueError "Length of values (4) does not match length of index (3)"),
     example_handler) ∧
  length (rows (data (snd (add_record four_columns example_handler bob))))
  = length (rows (data example_handler)).
Proof. repeat split; vm_compute; reflexivity. Qed.

(** C4, amended: when the table has as many columns as are declared, adding
    a valid record returns normally, and the table afterwards has the same
    columns and the same rows followed by the record, one row more. *)
Theorem add_record_valid (cls : DataHandlerClass) (self : DataHandler)
    (record : list pyval) :
  length (columns (data self)) = length (default_columns cls) →
  length record = length (default_columns cls) →
  ∃ self', add_record cls self record = (Return (), self') ∧
           columns (data self') = columns (data self) ∧
           rows (data self') = rows (data self) ++ [record] ∧
           length (rows (data self')) = S (length (rows (data self))).
Proof.
  intros Hcols Hrec. unfold add_record, validate_record.
  rewrite (proj2 (Nat.eqb_eq _ _) Hrec).
  rewrite pd_Series_same_length by congruence.
  eexists. split; [reflexivity|]. simpl.
  repeat split. rewrite length_app. simpl. lia.
Qed.

Lemma add_record_valid_witness :
  ∃ self', add_record DataHandler_class example_handler alice = (Return (), self') ∧
           columns (data self') = columns (data example_handler) ∧
           rows (data self') = rows (data example_handler) ++ [alice] ∧
           length (rows (data self')) = S (length (rows (data example_handler))).
Proof.
  apply (add_record_valid DataHandler_class example_handler alice); reflexivity.
Defined.

(** C7: when the table's number of columns differs from the declared one,
    a record of the declared length passes [validate_record], but building
    the row fails in pandas: [add_record] raises the [ValueError] about the
    length of the index and the handler keeps its table. *)
Theorem add_record_valid_raises (cls : DataHandlerClass) (self : DataHandler)
    (record : list pyval) :
  length record = length (default_columns cls) →
  length (columns (data self)) ≠ length (default_columns cls) →
  validate_record cls record = true ∧
  add_record cls self record
  = (Raise (ValueError (length_mismatch (length record) (length (columns (data self))))),
     self).
Proof.
  intros Hrec Hcols. unfold add_record, validate_record.
  rewrite (proj2 (Nat.eqb_eq _ _) Hrec). split; [done|].
  rewrite pd_Series_other_length by congruence. done.
Qed.

Lemma add_record_valid_raises_witness :
  validate_record four_columns bob = true ∧
  add_record four_columns example_handler bob
  = (Raise (ValueError (length_mismatch (length bob)
                          (length (columns (data example_handler))))),
     example_handler).
Proof.
  apply (add_record_valid_raises four_columns example_handler bob).
  - reflexivity.
  - simpl. lia.
Defined.

(** C8: the declared columns are state of the class.  After
    [set_default_columns cols] validation compares with [cols], whatever
    was declared before and for whichever handler: every handler rejects a
    record of another length, also one that was valid before the call. *)
Theorem set_default_columns_shared (cls : DataHandlerClass) (cols : list label)
    (record : list pyval) :
  default_columns (set_default_columns cls cols) = cols ∧
  validate_record (set_default_columns cls cols) record
  = Nat.eqb (length record) (length cols) ∧
  (∀ self : DataHandler,
     validate_record cls record = true →
     length cols ≠ length (default_columns cls) →
     validate_record (set_default_columns cls cols) record = false ∧
     add_record (set_default_columns cls cols) self record
     = (Raise (ValueError wrong_number_of_columns), self)).
Proof.
  split; [done|]. split; [done|].
  intros self Hvalid Hcols.
  apply Nat.eqb_eq in Hvalid.
  assert (Hne : length record ≠ length (default_columns (set_default_columns cls cols))).
  { simpl. congruence. }
  split.
  - unfold validate_record. by apply Nat.eqb_neq.
  - unfold add_record, validate_record.
    by rewrite (proj2 (Nat.eqb_neq _ _) Hne).
Qed.

(** The notebook's own sequence: Alice's record is valid for the class as
    defined and invalid for every handler once four columns are declared. *)
Example alice_becomes_invalid :
  validate_record DataHandler_class alice = true ∧
  validate_record four_columns alice = false ∧
  add_record four_columns example_handler alice
  = (Raise (ValueError wrong_number_of_columns), example_handler).
Proof. repeat split. Qed.

(** ** Further properties of [add_record] *)

(** X8: [add_record] returns normally exactly when the record has as many
    fields as are declared and as the table has columns; every other call
    raises a [ValueError] and leaves the handler as it was. *)
Theorem add_record_returns_iff (cls : DataHandlerClass) (self : DataHandler)
    (record : list pyval) :
  ((add_record cls self record).1 = Return () ↔
   length record = length (default_columns cls) ∧
   length record = length (columns (data self))) ∧
  ((add_record cls self record).1 ≠ Return () →
   ∃ msg, add_record cls self record = (Raise (ValueError msg), self)).
Proof.
  unfold add_record, validate_record.
  destruct (Nat.eqb_spec (length record) (length (default_columns cls))) as [Hd|Hd].
  - destruct (decide (length record = length (columns (data self)))) as [Hc|Hc].
    + rewrite pd_Series_same_length by done. simpl. split; [|done]. by split.
    + rewrite pd_Series_other_length by done. simpl. split.
      * split; [done|]. by intros [_ ?].
      * intros _. by eexists.
  - simpl. split.
    + split; [done|]. by intros [? _].
    + intros _. by eexists.
Qed.

(** X9: [add_record] keeps a rectangular table rectangular, whether it adds
    the record or raises: a row enters the table only after [pd.Series]
    has checked its length against the table's own columns. *)
Theorem add_record_rectangular (cls : DataHandlerClass) (self : DataHandler)
    (record : list pyval) :
  rectangular (data self) →
  rectangular (data (add_record cls self record).2).
Proof.
  intros Hrect. unfold add_record.
  destruct (validate_record cls record); [|done].
  unfold pd_Series.
  destruct (decide (length record = length (columns (data self)))) as [Hc|Hc];
    [|done].
  unfold rectangular in *. simpl. apply Forall_app. split; [done|].
  by apply Forall_singleton.
Qed.

Lemma add_record_rectangular_witness :
  rectangular (data (add_record DataHandler_class example_handler alice).2).
Proof.
  apply (add_record_rectangular DataHandler_class example_handler alice).
  apply Forall_nil_2.
Defined.

End HandlerFacts.

(** * Facts about the folder scaffold *)
Module ScaffoldFacts.
Import Scaffold.
Local Open Scope list_scope.

Example components_folders :
  map components folders =
  [ ["data"; "external"]; ["data"; "interim"]; ["data"; "processed"]; ["data"; "raw"];
    ["envs"]; ["docs"]; ["models"]; ["notebooks"]; ["references"];
    ["reports"; "figures"]; ["src"]; ["src"; "modeling"] ].
Proof. reflexivity. Qed.

(** ** Paths and lookups *)

Lemma lookup_path_ne (s : filesystem) (p : path) :
  p ≠ [] → lookup_path s p = s !! p.
Proof. by destruct p. Qed.

Lemma lookup_path_snoc (s : filesystem) (h : path) (t : string) :
  lookup_path s (h ++ [t]) = s !! (h ++ [t]).
Proof. apply lookup_path_ne. by destruct h. Qed.

Lemma lookup_path_mono (s t : filesystem) (p : path) (n : node) :
  s ⊆ t → lookup_path s p = Some n → lookup_path t p = Some n.
Proof.
  intros Hst. destruct p; simpl; [done|].
  intros H. by eapply lookup_weaken.
Qed.

Lemma dirname_snoc (h : path) (t : string) : dirname (h ++ [t]) = h.
Proof. apply removelast_last. Qed.

Lemma os_path_exists_true (s : filesystem) (p : path) :
  os_path_exists s p = true ↔ is_Some (lookup_path s p).
Proof.
  unfold os_path_exists. destruct (lookup_path s p); split; intros H;
    try done; try (by eexists); by destruct H.
Qed.

(** ** One directory *)

Lemma mkdir_exist_ok_result (name : path) (s : filesystem) :
  mkdir_result name s (mkdir_exist_ok true name s).
Proof.
  unfold mkdir_exist_ok, os_mkdir.
  destruct (lookup_path s (dirname name)) as [[|c]|] eqn:Hparent;
    destruct (lookup_path s name) as [[|c']|] eqn:Hname; simpl;
    unfold os_path_isdir; rewrite ?Hname; simpl;
    try (by apply mkdir_tolerated);
    try (by apply mkdir_created);
    apply mkdir_raised; unfold os_path_isdir; rewrite ?Hname; try done;
    intros _; by eexists.
Qed.

(** A directory with a parent is left alone. *)
Lemma mkdir_exist_ok_isdir (name : path) (s : filesystem) :
  lookup_path s name = Some Dir →
  is_Some (lookup_path s (dirname name)) →
  mkdir_exist_ok true name s = (Return (), s).
Proof.
  intros Hname [n Hparent]. unfold mkdir_exist_ok, os_mkdir.
  rewrite Hparent, ?Hname. unfold os_path_isdir.
  destruct n; simpl; by rewrite Hname.
Qed.

(** ** [os.makedirs] *)

Lemma makedirs_cons (tail : string) (rhead : list string) (s : filesystem) :
  makedirs_from_leaf (tail :: rhead) true s =
  if negb (bool_decide (rev rhead = [])) && negb (os_path_exists s (rev rhead)) then
    match makedirs_from_leaf rhead true s with
    | (Raise e, s1) =>
        if decide (e = FileExistsError)
        then mkdir_exist_ok true (rev rhead ++ [tail]) s1
        else (Raise e, s1)
    | (Return _, s1) => mkdir_exist_ok true (rev rhead ++ [tail]) s1
    end
  else mkdir_exist_ok true (rev rhead ++ [tail]) s.
Proof. reflexivity. Qed.

(** What [os.makedirs] changes: it only adds directories, at prefixes of
    the path. *)
Lemma makedirs_changes (rname : list string) (s : filesystem) r s' :
  makedirs_from_leaf rname true s = (r, s') →
  ∀ p, s' !! p = s !! p ∨
       (s !! p = None ∧ s' !! p = Some Dir ∧ rev p `suffix_of` rname).
Proof.
  revert s r s'. induction rname as [|tail rhead IH]; intros s r s' Hrun p.
  - simpl in Hrun. pose proof (mkdir_exist_ok_result [] s) as Hm.
    rewrite Hrun in Hm. inversion Hm; subst; auto. simpl in *. done.
  - rewrite makedirs_cons in Hrun.
    assert (Hlast : ∀ s1, mkdir_exist_ok true (rev rhead ++ [tail]) s1 = (r, s') →
              s' !! p = s1 !! p ∨
              (s1 !! p = None ∧ s' !! p = Some Dir ∧ rev p = tail :: rhead)).
    { intros s1 Hmk. pose proof (mkdir_exist_ok_result (rev rhead ++ [tail]) s1) as Hm.
      rewrite Hmk in Hm. inversion Hm; subst; auto.
      destruct (decide (p = rev rhead ++ [tail])) as [->|Hne].
      - right. rewrite lookup_insert_eq. rewrite <- lookup_path_snoc.
        split; [done|]. split; [done|].
        by rewrite rev_app_distr, rev_involutive.
      - left. by rewrite lookup_insert_ne. }
    assert (Hcombine : ∀ r1 s1, makedirs_from_leaf rhead true s = (r1, s1) →
              mkdir_exist_ok true (rev rhead ++ [tail]) s1 = (r, s') →
              s' !! p = s !! p ∨
              (s !! p = None ∧ s' !! p = Some Dir ∧ rev p `suffix_of` tail :: rhead)).
    { intros r1 s1 Hrec Hmk.
      destruct (Hlast s1 Hmk) as [Heq|(Hnone & Hdir & Hp)];
        destruct (IH _ _ _ Hrec p) as [Heq'|(Hnone' & Hdir' & Hp')].
      - left. congruence.
      - right. split; [done|]. split; [congruence|]. by apply suffix_cons_r.
      - right. split; [congruence|]. split; [done|]. by rewrite Hp.
      - congruence. }
    destruct (negb (bool_decide (rev rhead = [])) && negb (os_path_exists s (rev rhead))).
    + destruct (makedirs_from_leaf rhead true s) as [[[]|e] s1] eqn:Hrec.
      * by eapply Hcombine.
      * destruct (decide (e = FileExistsError)) as [->|Hne].
        -- by eapply Hcombine.
        -- simplify_eq.
           destruct (IH _ _ _ Hrec p) as [Heq'|(Hnone' & Hdir' & Hp')]; [by left|].
           right. split; [done|]. split; [done|]. by apply suffix_cons_r.
    + destruct (Hlast s Hrun) as [Heq|(Hnone & Hdir & Hp)]; [by left|].
      right. split; [done|]. split; [done|]. by rewrite Hp.
Qed.

(** [os.makedirs] keeps everything that exists. *)
Lemma makedirs_grows (rname : list string) (s : filesystem) r s' :
  makedirs_from_leaf rname true s = (r, s') → s ⊆ s'.
Proof.
  intros Hrun. apply map_subseteq_spec. intros p n Hp.
  destruct (makedirs_changes _ _ _ _ Hrun p) as [Heq|(Hnone & _)]; congruence.
Qed.

(** Paths longer than the argument are not touched. *)
Lemma makedirs_longer (rname : list string) (s : filesystem) r s' (p : path) :
  makedirs_from_leaf rname true s = (r, s') →
  length rname < length p → s' !! p = s !! p.
Proof.
  intros Hrun Hlen.
  destruct (makedirs_changes _ _ _ _ Hrun p) as [Heq|(_ & _ & Hsuf)]; [done|].
  apply suffix_length in Hsuf. rewrite length_rev in Hsuf. lia.
Qed.

(** The call made for a missing [head] cannot end in [FileExistsError]:
    the [except FileExistsError: pass] of [os.makedirs] guards against
    another process only. *)
Lemma makedirs_exists_error (rname : list string) (s s' : filesystem) :
  makedirs_from_leaf rname true s = (Raise FileExistsError, s') →
  is_Some (lookup_path s (rev rname)).
Proof.
  destruct rname as [|tail rhead]; [by eexists|].
  rewrite makedirs_cons. simpl rev. rewrite lookup_path_snoc.
  assert (Hlast : ∀ s1, mkdir_exist_ok true (rev rhead ++ [tail]) s1
                        = (Raise FileExistsError, s') →
                        is_Some (s1 !! (rev rhead ++ [tail]))).
  { intros s1 Hmk. pose proof (mkdir_exist_ok_result (rev rhead ++ [tail]) s1) as Hm.
    rewrite Hmk in Hm. inversion Hm; subst. rewrite <- lookup_path_snoc. auto. }
  assert (Hrec : ∀ r1 s1, makedirs_from_leaf rhead true s = (r1, s1) →
                 is_Some (s1 !! (rev rhead ++ [tail])) →
                 is_Some (s !! (rev rhead ++ [tail]))).
  { intros r1 s1 Hrun. erewrite (makedirs_longer _ _ _ _ _ Hrun); [done|].
    rewrite length_app, length_rev. simpl. lia. }
  destruct (negb (bool_decide (rev rhead = [])) && negb (os_path_exists s (rev rhead))).
  - destruct (makedirs_from_leaf rhead true s) as [[[]|e] s1] eqn:Hrun.
    + intros Hmk. eapply Hrec; eauto.
    + destruct (decide (e = FileExistsError)) as [->|Hne].
      * intros Hmk. eapply Hrec; eauto.
      * intros ?. simplify_eq.
  - apply Hlast.
Qed.

(** The cases of a call on a path with a last component, without the one
    that cannot happen. *)
Lemma makedirs_cons_inv (tail : string) (rhead : list string) (s : filesystem) r s' :
  makedirs_from_leaf (tail :: rhead) true s = (r, s') →
  ((rev rhead = [] ∨ is_Some (lookup_path s (rev rhead))) ∧
   mkdir_exist_ok true (rev rhead ++ [tail]) s = (r, s')) ∨
  (rev rhead ≠ [] ∧ lookup_path s (rev rhead) = None ∧
   ∃ s1, makedirs_from_leaf rhead true s = (Return (), s1) ∧
         mkdir_exist_ok true (rev rhead ++ [tail]) s1 = (r, s')) ∨
  (rev rhead ≠ [] ∧ lookup_path s (rev rhead) = None ∧
   ∃ e, r = Raise e ∧ makedirs_from_leaf rhead true s = (Raise e, s')).
Proof.
  rewrite makedirs_cons.
  destruct (bool_decide (rev rhead = [])) eqn:Hnil; simpl.
  { apply bool_decide_eq_true in Hnil. intros Hmk. left. auto. }
  apply bool_decide_eq_false in Hnil.
  destruct (os_path_exists s (rev rhead)) eqn:Hex; simpl.
  { apply os_path_exists_true in Hex. intros Hmk. left. auto. }
  assert (Hnone : lookup_path s (rev rhead) = None).
  { unfold os_path_exists in Hex. by destruct (lookup_path s (rev rhead)). }
  destruct (makedirs_from_leaf rhead true s) as [[[]|e] s1] eqn:Hrun.
  - intros Hmk. right. left. eauto.
  - destruct (decide (e = FileExistsError)) as [->|Hne].
    + apply makedirs_exists_error in Hrun. rewrite Hnone in Hrun. by destruct Hrun.
    + intros ?. simplify_eq. right. right. eauto.
Qed.

(** After a call that returns, the path is a directory and its parent
    exists. *)
Lemma makedirs_returned (rname : list string) (s s' : filesystem) :
  makedirs_from_leaf rname true s = (Return (), s') →
  lookup_path s' (rev rname) = Some Dir ∧
  is_Some (lookup_path s' (dirname (rev rname))).
Proof.
  revert s s'. induction rname as [|tail rhead IH]; intros s s' Hrun.
  { simpl. split; [done|by eexists]. }
  simpl rev. rewrite dirname_snoc.
  assert (Hlast : ∀ s1, (rev rhead = [] ∨ is_Some (lookup_path s1 (rev rhead))) →
            mkdir_exist_ok true (rev rhead ++ [tail]) s1 = (Return (), s') →
            lookup_path s' (rev rhead ++ [tail]) = Some Dir ∧
            is_Some (lookup_path s' (rev rhead))).
  { intros s1 Hhead Hmk.
    pose proof (mkdir_exist_ok_result (rev rhead ++ [tail]) s1) as Hm.
    rewrite Hmk in Hm. inversion Hm as [Hparent Hname| Hname|]; subst.
    - rewrite lookup_path_snoc, lookup_insert_eq. split; [done|].
      rewrite dirname_snoc in Hparent. exists Dir.
      eapply lookup_path_mono; [|done]. apply insert_subseteq.
      by rewrite <- lookup_path_snoc.
    - split; [done|]. destruct Hhead as [->|?]; [by eexists|done]. }
  apply makedirs_cons_inv in Hrun
    as [[Hhead Hmk]|[(Hne & Hnone & s1 & Hrec & Hmk)|(_ & _ & e & ? & _)]];
    [by eapply Hlast| |done].
  eapply Hlast; [|done]. right. apply IH in Hrec as [-> _]. by eexists.
Qed.

(** A call that raises leaves the path itself as it was. *)
Lemma makedirs_raised (rname : list string) (s s' : filesystem) e :
  makedirs_from_leaf rname true s = (Raise e, s') →
  lookup_path s' (rev rname) = lookup_path s (rev rname).
Proof.
  destruct rname as [|tail rhead]; [done|]. intros Hrun.
  simpl rev. rewrite !lookup_path_snoc.
  assert (Hlast : ∀ s1, mkdir_exist_ok true (rev rhead ++ [tail]) s1 = (Raise e, s') →
                        s' = s1).
  { intros s1 Hmk. pose proof (mkdir_exist_ok_result (rev rhead ++ [tail]) s1) as Hm.
    rewrite Hmk in Hm. by inversion Hm. }
  assert (Hlonger : ∀ r1 s1, makedirs_from_leaf rhead true s = (r1, s1) →
                    s1 !! (rev rhead ++ [tail]) = s !! (rev rhead ++ [tail])).
  { intros r1 s1 Hrec. eapply makedirs_longer; [done|].
    rewrite length_app, length_rev. simpl. lia. }
  apply makedirs_cons_inv in Hrun
    as [[Hhead Hmk]|[(Hne & Hnone & s1 & Hrec & Hmk)|(_ & _ & e' & ? & Hrec)]].
  - by rewrite (Hlast _ Hmk).
  - rewrite (Hlast _ Hmk). by eapply Hlonger.
  - by eapply Hlonger.
Qed.

(** ** Commands that can be run again *)

Lemma repeatable_again (c : filesystem → outcome () * filesystem) (s : filesystem) :
  repeatable c → c (c s).2 = ((c s).1, (c s).2).
Proof.
  intros Hc. destruct (c s) as [[[]|e] s'] eqn:Hrun; simpl.
  - by eapply (rep_returned c Hc).
  - by eapply (rep_raised c Hc).
Qed.

Lemma makedirs_repeatable (name : path) : repeatable (os_makedirs name true).
Proof.
  unfold os_makedirs. generalize (rev name) as rname. clear name.
  intros rname. split.
  - intros s. destruct (makedirs_from_leaf rname true s) as [r s'] eqn:Hrun.
    by eapply makedirs_grows.
  - intros s s' t Hrun Hsub.
    apply makedirs_returned in Hrun as [Hdir [n Hparent]].
    pose proof (lookup_path_mono _ _ _ _ Hsub Hdir) as Hdir'.
    pose proof (lookup_path_mono _ _ _ _ Hsub Hparent) as Hparent'.
    destruct rname as [|tail rhead]; simpl rev in *.
    { simpl. by apply mkdir_exist_ok_isdir. }
    rewrite dirname_snoc in Hparent'. rewrite makedirs_cons.
    assert (Hex : os_path_exists t (rev rhead) = true).
    { apply os_path_exists_true. by eexists. }
    rewrite Hex, andb_false_r.
    apply mkdir_exist_ok_isdir; [done|]. rewrite dirname_snoc. by eexists.
  - revert rname. induction rname as [|tail rhead IH]; intros s s' e Hrun.
    { simpl in *. pose proof (mkdir_exist_ok_result [] s) as Hm.
      rewrite Hrun in Hm. inversion Hm; subst. done. }
    assert (Hlast : ∀ s1, mkdir_exist_ok true (rev rhead ++ [tail]) s1 = (Raise e, s') →
                          s' = s1).
    { intros s1 Hmk. pose proof (mkdir_exist_ok_result (rev rhead ++ [tail]) s1) as Hm.
      rewrite Hmk in Hm. by inversion Hm. }
    pose proof Hrun as Hcases. apply makedirs_cons_inv in Hcases
      as [[Hhead Hmk]|[(Hne & Hnone & s1 & Hrec & Hmk)|(Hne & Hnone & e' & ? & Hrec)]].
    + by rewrite (Hlast _ Hmk) in *.
    + pose proof (Hlast _ Hmk) as ->.
      apply makedirs_returned in Hrec as [Hdir _].
      rewrite makedirs_cons.
      assert (Hex : os_path_exists s1 (rev rhead) = true).
      { apply os_path_exists_true. by eexists. }
      by rewrite Hex, andb_false_r.
    + simplify_eq. rewrite makedirs_cons.
      pose proof (makedirs_raised _ _ _ _ Hrec) as Hsame.
      rewrite Hnone in Hsame.
      assert (Hex : os_path_exists s' (rev rhead) = false).
      { unfold os_path_exists. by rewrite Hsame. }
      rewrite Hex, (bool_decide_eq_false_2 _ Hne). simpl.
      rewrite (IH _ _ _ Hrec).
      destruct (decide (e' = FileExistsError)) as [->|?]; [|done].
      apply makedirs_exists_error in Hrec. rewrite Hnone in Hrec. by destruct Hrec.
Qed.

Lemma open_append_close_repeatable (name : path) :
  repeatable (open_append_close name).
Proof.
  split.
  - intros s. unfold open_append_close.
    destruct (lookup_path s (dirname name)) as [[|c]|]; simpl; try done.
    destruct (lookup_path s name) as [[|c]|] eqn:Hname; simpl; try done.
    apply insert_subseteq. destruct name; [done|]. done.
  - intros s s' t Hrun Hsub.
    assert (lookup_path s' (dirname name) = Some Dir ∧
            ∃ c, lookup_path s' name = Some (File c)) as [Hparent [c Hname]].
    { unfold open_append_close in Hrun.
      destruct (lookup_path s (dirname name)) as [[|c]|] eqn:Hparent; try done.
      destruct (lookup_path s name) as [[|c]|] eqn:Hname; simplify_eq.
      - split; [done|]. by eexists.
      - assert (Hne : name ≠ []) by (by destruct name).
        assert (Hkey : s !! name = None) by (by rewrite <- lookup_path_ne).
        split.
        + eapply lookup_path_mono; [|done]. by apply insert_subseteq.
        + exists "". by rewrite lookup_path_ne, lookup_insert_eq. }
    unfold open_append_close.
    by rewrite (lookup_path_mono _ _ _ _ Hsub Hparent),
      (lookup_path_mono _ _ _ _ Hsub Hname).
  - intros s s' e Hrun.
    assert (s' = s) as ->; [|done].
    unfold open_append_close in Hrun.
    destruct (lookup_path s (dirname name)) as [[|c]|]; simplify_eq; try done.
    destruct (lookup_path s name) as [[|c]|]; by simplify_eq.
Qed.

Lemma for_each_repeatable {A : Type}
    (body : A → filesystem → outcome () * filesystem) (l : list A) :
  (∀ x, repeatable (body x)) → repeatable (for_each body l).
Proof.
  intros Hbody. induction l as [|x l IH].
  { split; simpl; intros; by simplify_eq. }
  destruct IH as [IHg IHr IHe]. destruct (Hbody x) as [Hg Hr He]. split.
  - intros s. simpl. specialize (Hg s).
    destruct (body x s) as [[[]|e] s1]; simpl in *; [|done].
    etrans; [done|]. apply IHg.
  - intros s s' t Hrun Hsub. simpl in *.
    destruct (body x s) as [[[]|e] s1] eqn:Hx; [|done].
    rewrite (Hr s s1 t Hx).
    + by eapply IHr.
    + etrans; [|done]. specialize (IHg s1). by rewrite Hrun in IHg.
  - intros s s' e Hrun. simpl in *.
    destruct (body x s) as [[[]|e'] s1] eqn:Hx.
    + rewrite (Hr s s1 s' Hx).
      * by eapply IHe.
      * specialize (IHg s1). by rewrite Hrun in IHg.
    + simplify_eq. by rewrite (He _ _ _ Hx).
Qed.

Lemma create_folder_structure_repeatable (base_path : path) :
  repeatable (create_folder_structure base_path).
Proof.
  unfold create_folder_structure.
  set (c1 := for_each (λ folder, os_makedirs (os_path_join base_path folder) true) folders).
  set (c2 := for_each (λ file, open_append_close (os_path_join base_path file)) files).
  assert (H1 : repeatable c1).
  { apply for_each_repeatable. intros folder. apply makedirs_repeatable. }
  assert (H2 : repeatable c2).
  { apply for_each_repeatable. intros file. apply open_append_close_repeatable. }
  clearbody c1 c2.
  destruct H1 as [Hg1 Hr1 He1]. destruct H2 as [Hg2 Hr2 He2]. split.
  - intros s. specialize (Hg1 s).
    destruct (c1 s) as [[[]|e] s1]; simpl in *; [|done].
    etrans; [done|]. apply Hg2.
  - intros s s' t Hrun Hsub.
    destruct (c1 s) as [[[]|e] s1] eqn:Hc1; [|done].
    rewrite (Hr1 s s1 t Hc1).
    + by eapply Hr2.
    + etrans; [|done]. specialize (Hg2 s1). by rewrite Hrun in Hg2.
  - intros s s' e Hrun.
    destruct (c1 s) as [[[]|e'] s1] eqn:Hc1.
    + rewrite (Hr1 s s1 s' Hc1).
      * by eapply He2.
      * specialize (Hg2 s1). by rewrite Hrun in Hg2.
    + simplify_eq. by rewrite (He1 _ _ _ Hc1).
Qed.

(** C10: running [create_folder_structure] again, in whatever state the
    first run left, ends the same way and changes nothing; and the first
    run keeps everything that existed, in particular a placeholder file
    that had content keeps it. *)
Theorem create_folder_structure_idempotent (base_path : path) (s : filesystem) :
  create_folder_structure base_path (create_folder_structure base_path s).2
  = ((create_folder_structure base_path s).1,
     (create_folder_structure base_path s).2) ∧
  s ⊆ (create_folder_structure base_path s).2 ∧
  ∀ file content,
    file ∈ files →
    lookup_path s (os_path_join base_path file) = Some (File content) →
    lookup_path (create_folder_structure base_path s).2
      (os_path_join base_path file) = Some (File content).
Proof.
  pose proof (create_folder_structure_repeatable base_path) as Hrep.
  split; [by apply repeatable_again|].
  split; [apply (rep_grows _ Hrep)|].
  intros file content _. apply lookup_path_mono, (rep_grows _ Hrep).
Qed.

(** ** When the script goes through *)

Lemma suffix_rev_prefix (rq : list string) (name : path) :
  rq `suffix_of` rev name → rev rq `prefix_of` name.
Proof.
  intros [k Hk]. exists (rev k).
  by rewrite <- (rev_involutive name), Hk, rev_app_distr.
Qed.

Lemma dirname_prefix (p : path) : dirname p `prefix_of` p.
Proof.
  destruct (decide (p = [])) as [->|Hne]; [done|].
  exists [List.last p ""]. by apply app_removelast_last.
Qed.

Lemma dirname_join (base_path rel : path) :
  rel ≠ [] → dirname (base_path ++ rel) = base_path ++ dirname rel.
Proof. intros Hne. by apply removelast_app. Qed.

Lemma os_makedirs_changes (name : path) (s : filesystem) r s' :
  os_makedirs name true s = (r, s') →
  ∀ p, s' !! p = s !! p ∨
       (s !! p = None ∧ s' !! p = Some Dir ∧ p `prefix_of` name).
Proof.
  intros Hrun p.
  destruct (makedirs_changes _ _ _ _ Hrun p) as [?|(? & ? & Hsuf)]; [by left|].
  right. split; [done|]. split; [done|].
  apply suffix_rev_prefix in Hsuf. by rewrite rev_involutive in Hsuf.
Qed.

(** Adding directories makes no path a regular file. *)
Lemma isfile_after_dirs (s s' : filesystem) (P : path → Prop) (q : path) :
  (∀ p, s' !! p = s !! p ∨ (s !! p = None ∧ s' !! p = Some Dir ∧ P p)) →
  os_path_isfile s q = false → os_path_isfile s' q = false.
Proof.
  intros Hch. unfold os_path_isfile. destruct q as [|c q]; [done|]. simpl.
  destruct (Hch (c :: q)) as [->|(_ & -> & _)]; done.
Qed.

Lemma mkdir_ok (name : path) (s : filesystem) :
  lookup_path s (dirname name) = Some Dir →
  os_path_isfile s name = false →
  ∃ s', mkdir_exist_ok true name s = (Return (), s').
Proof.
  intros Hparent Hfile. unfold mkdir_exist_ok, os_mkdir, os_path_isfile in *.
  rewrite Hparent. unfold os_path_isdir.
  destruct (lookup_path s name) as [[|c]|] eqn:Hname; simpl.
  - rewrite Hname. by eexists.
  - done.
  - by eexists.
Qed.

Lemma makedirs_ok (rname : list string) (s : filesystem) :
  (∀ rq, rq `suffix_of` rname → os_path_isfile s (rev rq) = false) →
  ∃ s', makedirs_from_leaf rname true s = (Return (), s').
Proof.
  revert s. induction rname as [|tail rhead IH]; intros s Hclear.
  { simpl. apply mkdir_ok; [done|]. by apply (Hclear []). }
  rewrite makedirs_cons.
  assert (Hname : os_path_isfile s (rev rhead ++ [tail]) = false).
  { by apply (Hclear (tail :: rhead)). }
  assert (Hhead : os_path_isfile s (rev rhead) = false).
  { apply Hclear. by apply suffix_cons_r. }
  destruct (bool_decide (rev rhead = [])) eqn:Hnil; simpl.
  { apply bool_decide_eq_true in Hnil. apply mkdir_ok; [|done].
    by rewrite dirname_snoc, Hnil. }
  destruct (os_path_exists s (rev rhead)) eqn:Hex; simpl.
  { apply mkdir_ok; [|done]. rewrite dirname_snoc.
    unfold os_path_exists, os_path_isfile in *.
    by destruct (lookup_path s (rev rhead)) as [[|c]|]. }
  destruct (IH s) as [s1 Hrec].
  { intros rq Hrq. apply Hclear. by apply suffix_cons_r. }
  rewrite Hrec. apply mkdir_ok.
  - rewrite dirname_snoc. by apply makedirs_returned in Hrec as [-> _].
  - unfold os_path_isfile in *. rewrite lookup_path_snoc in *.
    erewrite makedirs_longer; [done|done|].
    rewrite length_app, length_rev. simpl. lia.
Qed.

Lemma os_makedirs_ok (name : path) (s : filesystem) :
  (∀ q, q `prefix_of` name → os_path_isfile s q = false) →
  ∃ s', os_makedirs name true s = (Return (), s') ∧
        lookup_path s' name = Some Dir ∧
        is_Some (lookup_path s' (dirname name)).
Proof.
  intros Hclear. destruct (makedirs_ok (rev name) s) as [s' Hrun].
  { intros rq Hrq. by apply Hclear, suffix_rev_prefix. }
  exists s'. split; [done|].
  apply makedirs_returned in Hrun. by rewrite rev_involutive in Hrun.
Qed.

(** The first loop. *)
Lemma makedirs_loop (base_path : path) (l : list string) (s : filesystem) :
  (∀ folder q, folder ∈ l →
     q `prefix_of` os_path_join base_path folder → os_path_isfile s q = false) →
  ∃ s1,
    for_each (λ folder, os_makedirs (os_path_join base_path folder) true) l s
    = (Return (), s1) ∧
    (∀ p, s1 !! p = s !! p ∨
          (s !! p = None ∧ s1 !! p = Some Dir ∧
           ∃ folder, folder ∈ l ∧ p `prefix_of` os_path_join base_path folder)) ∧
    (∀ folder, folder ∈ l →
       lookup_path s1 (os_path_join base_path folder) = Some Dir ∧
       is_Some (lookup_path s1 (dirname (os_path_join base_path folder)))).
Proof.
  revert s. induction l as [|x l IH]; intros s Hclear.
  { exists s. split; [done|]. split; [by left|]. intros folder Hin. by inversion Hin. }
  destruct (os_makedirs_ok (os_path_join base_path x) s) as (s' & Hrun & Hdir & Hparent).
  { intros q. apply Hclear. by left. }
  pose proof (os_makedirs_changes _ _ _ _ Hrun) as Hch.
  destruct (IH s') as (s1 & Hloop & Hch1 & Hdirs).
  { intros folder q Hin Hq. eapply isfile_after_dirs; [exact Hch|].
    eapply Hclear; [|done]. by right. }
  assert (Hsub : s' ⊆ s1).
  { apply map_subseteq_spec. intros p n Hp.
    destruct (Hch1 p) as [?|(? & _)]; congruence. }
  exists s1. simpl. rewrite Hrun. split; [done|]. split.
  - intros p.
    destruct (Hch1 p) as [Heq|(Hnone & Hd & folder & Hin & Hpre)];
      destruct (Hch p) as [Heq'|(Hnone' & Hd' & Hpre')].
    + left. congruence.
    + right. split; [done|]. split; [congruence|]. exists x. split; [by left|done].
    + right. split; [congruence|]. split; [done|]. exists folder. split; [by right|done].
    + congruence.
  - intros folder Hin. apply elem_of_cons in Hin as [->|Hin]; [|by apply Hdirs].
    split; [by eapply lookup_path_mono|].
    destruct Hparent as [n Hn]. exists n. by eapply lookup_path_mono.
Qed.

(** The second loop. *)
Lemma open_loop (base_path : path) (l : list string) (s : filesystem) :
  (∀ file, file ∈ l →
     lookup_path s (dirname (os_path_join base_path file)) = Some Dir ∧
     os_path_isdir s (os_path_join base_path file) = false) →
  ∃ s2,
    for_each (λ file, open_append_close (os_path_join base_path file)) l s
    = (Return (), s2) ∧
    (∀ p, s2 !! p = s !! p ∨ (s !! p = None ∧ s2 !! p = Some (File ""))) ∧
    (∀ file, file ∈ l →
       ∃ content, lookup_path s2 (os_path_join base_path file) = Some (File content)).
Proof.
  revert s. induction l as [|x l IH]; intros s Hpre.
  { exists s. split; [done|]. split; [by left|]. intros file Hin. by inversion Hin. }
  destruct (Hpre x) as [Hparent Hnodir]; [by left|].
  set (name := os_path_join base_path x) in *.
  assert (Hne : name ≠ []).
  { intros E. by rewrite E in Hnodir. }
  assert (∃ s', open_append_close name s = (Return (), s') ∧
                (∀ p, s' !! p = s !! p ∨ (s !! p = None ∧ s' !! p = Some (File ""))) ∧
                ∃ content, s' !! name = Some (File content)) as (s' & Hrun & Hch & Hfile).
  { unfold open_append_close. rewrite Hparent.
    unfold os_path_isdir in Hnodir. rewrite lookup_path_ne in * by done.
    destruct (s !! name) as [[|c]|] eqn:Hname; [done| |].
    - exists s. split; [done|]. split; [by left|]. by eexists.
    - exists (<[name := File ""]> s). split; [done|]. split.
      + intros p. destruct (decide (p = name)) as [->|Hp].
        * right. by rewrite lookup_insert_eq.
        * left. by rewrite lookup_insert_ne.
      + rewrite lookup_insert_eq. by eexists. }
  assert (Hsub : s ⊆ s').
  { apply map_subseteq_spec. intros p n Hp.
    destruct (Hch p) as [?|(? & _)]; congruence. }
  destruct (IH s') as (s2 & Hloop & Hch2 & Hfiles).
  { intros file Hin. destruct (Hpre file) as [Hparent' Hnodir']; [by right|].
    split; [by eapply lookup_path_mono|].
    set (name' := os_path_join base_path file) in *.
    assert (Hne' : name' ≠ []).
    { intros E. by rewrite E in Hnodir'. }
    unfold os_path_isdir in Hnodir' |- *.
    rewrite lookup_path_ne in Hnodir' |- * by done.
    destruct (Hch name') as [->|(_ & ->)]; done. }
  assert (Hsub2 : s' ⊆ s2).
  { apply map_subseteq_spec. intros p n Hp.
    destruct (Hch2 p) as [?|(? & _)]; congruence. }
  exists s2. simpl. fold name. rewrite Hrun. split; [done|]. split.
  - intros p. destruct (Hch2 p) as [Heq|[Hnone Hf]]; destruct (Hch p) as [Heq'|[Hnone' Hf']].
    + left. congruence.
    + right. split; [done|]. congruence.
    + right. split; [congruence|done].
    + congruence.
  - intros file Hin. apply elem_of_cons in Hin as [->|Hin]; [|by apply Hfiles].
    destruct Hfile as [content Hfile]. exists content. fold name.
    rewrite lookup_path_ne by done. by eapply lookup_weaken.
Qed.

(** ** The listed names *)

Lemma folders_components : Forall (λ folder, components folder ≠ []) folders.
Proof. apply (bool_decide_unpack _). vm_compute. exact I. Qed.

Lemma files_components : Forall (λ file, components file ≠ []) files.
Proof. apply (bool_decide_unpack _). vm_compute. exact I. Qed.

(** The directory of every placeholder file is one of the listed
    directories, or the parent of one. *)
Lemma files_directories :
  Forall (λ file,
    Exists (λ folder,
      dirname (components file) = components folder ∨
      dirname (components file) = dirname (components folder)) folders) files.
Proof. apply (bool_decide_unpack _). vm_compute. exact I. Qed.

(** No placeholder file is at or above a listed directory. *)
Lemma files_not_above_folders :
  Forall (λ file,
    Forall (λ folder, ¬ components file `prefix_of` components folder) folders) files.
Proof. apply (bool_decide_unpack _). vm_compute. exact I. Qed.

Lemma no_file_above_folder (base_path : path) (file folder : string) :
  file ∈ files → folder ∈ folders →
  ¬ os_path_join base_path file `prefix_of` os_path_join base_path folder.
Proof.
  intros Hfile Hfolder Hpre. apply prefix_app_inv in Hpre.
  pose proof files_not_above_folders as H.
  rewrite Forall_forall in H. specialize (H file Hfile).
  rewrite Forall_forall in H. by apply (H folder Hfolder).
Qed.

Lemma unobstructed_empty (base_path : path) :
  base_path ≠ [] → unobstructed base_path ∅.
Proof.
  intros Hne. split.
  - intros folder q _ _. unfold os_path_isfile.
    destruct q; simpl; [done|]. by rewrite lookup_empty.
  - intros file _. unfold os_path_isdir, os_path_join.
    destruct base_path; [done|]. simpl. by rewrite lookup_empty.
Qed.

(** C9, as stated, fails when something is in the way: with a regular
    file where the base directory should be, the first [os.makedirs]
    raises and no directory is created. *)
Lemma create_folder_structure_obstructed :
  create_folder_structure ["project"] {[ ["project"] := File "notes" ]}
  = (Raise NotADirectoryError, {[ ["project"] := File "notes" ]}) ∧
  lookup_path {[ ["project"] := File "notes" ]}
    (os_path_join ["project"] "data/external") = None.
Proof. split; vm_compute; reflexivity. Qed.

(** C9, amended: when nothing is in the way (no regular file at a listed
    directory or above it, no directory at a placeholder path),
    [create_folder_structure] returns, the twelve directories exist, the
    seventeen placeholder files exist, and each placeholder that did not
    exist before is empty. *)
Theorem create_folder_structure_creates (base_path : path) (s : filesystem) :
  unobstructed base_path s →
  ∃ s', create_folder_structure base_path s = (Return (), s') ∧
        length folders = 12 ∧ length files = 17 ∧
        (∀ folder, folder ∈ folders →
           lookup_path s' (os_path_join base_path folder) = Some Dir) ∧
        (∀ file, file ∈ files →
           ∃ content,
             lookup_path s' (os_path_join base_path file) = Some (File content)) ∧
        (∀ file, file ∈ files →
           lookup_path s (os_path_join base_path file) = None →
           lookup_path s' (os_path_join base_path file) = Some (File "")).
Proof.
  intros [Hfold Hfile].
  destruct (makedirs_loop base_path folders s Hfold) as (s1 & Hloop1 & Hch1 & Hdirs).
  assert (Hnames : ∀ file, file ∈ files → os_path_join base_path file ≠ []).
  { intros file Hin E. specialize (Hfile file Hin). by rewrite E in Hfile. }
  destruct (open_loop base_path files s1) as (s2 & Hloop2 & Hch2 & Hfiles).
  { intros file Hin. split.
    - pose proof files_components as Hne. rewrite Forall_forall in Hne.
      unfold os_path_join. rewrite dirname_join by by apply Hne.
      pose proof files_directories as Hd. rewrite Forall_forall in Hd.
      specialize (Hd file Hin). apply Exists_exists in Hd as (folder & Hfin & [->| ->]).
      + by apply Hdirs.
      + pose proof folders_components as Hne'. rewrite Forall_forall in Hne'.
        rewrite <- dirname_join by by apply Hne'.
        destruct (Hdirs folder Hfin) as [_ [n Hn]].
        assert (Hnofile : os_path_isfile s1
                  (dirname (os_path_join base_path folder)) = false).
        { eapply isfile_after_dirs; [exact Hch1|].
          eapply Hfold; [done|]. apply dirname_prefix. }
        unfold os_path_isfile, os_path_join in *. rewrite Hn in Hnofile.
        by destruct n.
    - specialize (Hfile file Hin). unfold os_path_isdir in *.
      rewrite lookup_path_ne in * by by apply Hnames.
      destruct (Hch1 (os_path_join base_path file))
        as [->|(_ & _ & folder & Hfin & Hpre)]; [done|].
      by apply no_file_above_folder in Hpre. }
  assert (Hsub : s1 ⊆ s2).
  { apply map_subseteq_spec. intros p n Hp.
    destruct (Hch2 p) as [?|(? & _)]; congruence. }
  exists s2. unfold create_folder_structure. rewrite Hloop1.
  split; [done|]. split; [done|]. split; [done|]. split; [|split; [done|]].
  - intros folder Hin. eapply lookup_path_mono; [done|]. by apply Hdirs.
  - intros file Hin Hnone. destruct (Hfiles file Hin) as [content Hc].
    rewrite lookup_path_ne in * by by apply Hnames.
    destruct (Hch2 (os_path_join base_path file)) as [Heq|[_ ?]]; [|done].
    destruct (Hch1 (os_path_join base_path file)) as [Heq'|(_ & Heq' & _)]; congruence.
Qed.

Lemma create_folder_structure_creates_witness :
  ∃ s', create_folder_structure ["project"] ∅ = (Return (), s') ∧
        length folders = 12 ∧ length files = 17 ∧
        (∀ folder, folder ∈ folders →
           lookup_path s' (os_path_join ["project"] folder) = Some Dir) ∧
        (∀ file, file ∈ files →
           ∃ content,
             lookup_path s' (os_path_join ["project"] file) = Some (File content)) ∧
        (∀ file, file ∈ files →
           lookup_path (∅ : filesystem) (os_path_join ["project"] file) = None →
           lookup_path s' (os_path_join ["project"] file) = Some (File "")).
Proof.
  apply (create_folder_structure_creates ["project"] ∅).
  by apply unobstructed_empty.
Defined.

(** ** What the script changes, and what it never does *)

Lemma open_append_close_changes (name : path) (s : filesystem) r s' :
  open_append_close name s = (r, s') →
  ∀ p, s' !! p = s !! p ∨
       (s !! p = None ∧ s' !! p = Some (File "") ∧ p = name).
Proof.
  unfold open_append_close. intros Hrun p.
  destruct (lookup_path s (dirname name)) as [[|c]|]; simplify_eq; auto.
  destruct (lookup_path s name) as [[|c]|] eqn:Hname; simplify_eq; auto.
  destruct (decide (p = name)) as [->|Hne].
  - right. rewrite lookup_insert_eq. split; [|done].
    destruct name; [done|]. done.
  - left. by rewrite lookup_insert_ne.
Qed.

Lemma open_append_close_returned (name : path) (s s' : filesystem) :
  open_append_close name s = (Return (), s') →
  ∃ content, lookup_path s' name = Some (File content).
Proof.
  unfold open_append_close. intros Hrun.
  destruct (lookup_path s (dirname name)) as [[|c]|]; simplify_eq.
  destruct (lookup_path s name) as [[|c]|] eqn:Hname; simplify_eq.
  - by eexists.
  - exists "". destruct name; [done|]. simpl. by rewrite lookup_insert_eq.
Qed.

Lemma for_each_changes {A : Type}
    (body : A → filesystem → outcome () * filesystem)
    (P : A → path → node → Prop) (l : list A) (s : filesystem) r s' :
  (∀ x s r s', body x s = (r, s') →
     ∀ p, s' !! p = s !! p ∨ (s !! p = None ∧ ∃ n, s' !! p = Some n ∧ P x p n)) →
  for_each body l s = (r, s') →
  ∀ p, s' !! p = s !! p ∨
       (s !! p = None ∧ ∃ n x, s' !! p = Some n ∧ x ∈ l ∧ P x p n).
Proof.
  intros Hbody. revert s. induction l as [|x l IH]; intros s Hrun p.
  { simpl in Hrun. simplify_eq. by left. }
  simpl in Hrun. destruct (body x s) as [[[]|e] s1] eqn:Hx.
  - destruct (Hbody _ _ _ _ Hx p) as [Heq|(Hnone & n & Hn & HP)];
      destruct (IH _ Hrun p) as [Heq'|(Hnone' & n' & x' & Hn' & Hin & HP')].
    + left. congruence.
    + right. split; [congruence|]. exists n', x'. split; [done|]. split; [by right|done].
    + right. split; [done|]. exists n, x. split; [congruence|]. split; [by left|done].
    + congruence.
  - simplify_eq.
    destruct (Hbody _ _ _ _ Hx p) as [Heq|(Hnone & n & Hn & HP)]; [by left|].
    right. split; [done|]. exists n, x. split; [done|]. split; [by left|done].
Qed.

(** X10: Whatever the outcome, [create_folder_structure] changes the file
    system only by adding, at paths where nothing was, directories on the
    way to the listed directories and empty files at the listed placeholder
    paths: it removes nothing, overwrites nothing and writes nowhere
    else. *)
Theorem create_folder_structure_only_adds (base_path : path) (s : filesystem)
    (p : path) :
  (create_folder_structure base_path s).2 !! p = s !! p ∨
  (s !! p = None ∧
   (((create_folder_structure base_path s).2 !! p = Some Dir ∧
     ∃ folder, folder ∈ folders ∧ p `prefix_of` os_path_join base_path folder) ∨
    ((create_folder_structure base_path s).2 !! p = Some (File "") ∧
     ∃ file, file ∈ files ∧ p = os_path_join base_path file))).
Proof.
  unfold create_folder_structure.
  destruct (for_each (λ folder, os_makedirs (os_path_join base_path folder) true)
              folders s) as [r1 s1] eqn:H1.
  assert (Hch1 : ∀ p, s1 !! p = s !! p ∨
            (s !! p = None ∧ ∃ n folder, s1 !! p = Some n ∧ folder ∈ folders ∧
               (n = Dir ∧ p `prefix_of` os_path_join base_path folder))).
  { eapply (for_each_changes _
              (λ folder p n, n = Dir ∧ p `prefix_of` os_path_join base_path folder));
      [|exact H1].
    intros x s0 r0 s0' Hx q.
    destruct (os_makedirs_changes _ _ _ _ Hx q) as [?|(? & ? & ?)]; [by left|].
    right. split; [done|]. by exists Dir. }
  destruct r1 as [[]|e]; cbv beta iota.
  2:{ simpl. destruct (Hch1 p) as [?|(Hnone & n & folder & Hn & Hin & -> & Hpre)]; [by left|].
      right. split; [done|]. left. split; [done|]. by exists folder. }
  destruct (for_each (λ file, open_append_close (os_path_join base_path file))
              files s1) as [r2 s2] eqn:H2. simpl.
  assert (Hch2 : ∀ p, s2 !! p = s1 !! p ∨
            (s1 !! p = None ∧ ∃ n file, s2 !! p = Some n ∧ file ∈ files ∧
               (n = File "" ∧ p = os_path_join base_path file))).
  { eapply (for_each_changes _
              (λ file p n, n = File "" ∧ p = os_path_join base_path file));
      [|exact H2].
    intros x s0 r0 s0' Hx q.
    destruct (open_append_close_changes _ _ _ _ Hx q) as [?|(? & ? & ?)]; [by left|].
    right. split; [done|]. by exists (File ""). }
  destruct (Hch2 p) as [Heq|(Hnone & n & file & Hn & Hin & -> & Hp)];
    destruct (Hch1 p) as [Heq'|(Hnone' & n' & folder & Hn' & Hin' & -> & Hpre)].
  - left. congruence.
  - right. split; [done|]. left. split; [congruence|]. by exists folder.
  - right. split; [congruence|]. right. split; [done|]. by exists file.
  - congruence.
Qed.

(** ** Trees stay trees *)

Lemma well_formed_insert (s : filesystem) (name : path) (n : node) :
  well_formed s → s !! name = None →
  lookup_path s (dirname name) = Some Dir →
  well_formed (<[name := n]> s).
Proof.
  intros Hwf Hnone Hparent p m Hp.
  eapply lookup_path_mono; [by apply insert_subseteq|].
  destruct (decide (p = name)) as [->|Hne]; [done|].
  rewrite lookup_insert_ne in Hp by done. by eapply Hwf.
Qed.

Lemma mkdir_exist_ok_well_formed (name : path) (s : filesystem) r s' :
  well_formed s → mkdir_exist_ok true name s = (r, s') → well_formed s'.
Proof.
  intros Hwf Hrun. pose proof (mkdir_exist_ok_result name s) as Hm.
  rewrite Hrun in Hm. inversion Hm as [Hparent Hname| |]; subst; try done.
  apply well_formed_insert; try done.
  destruct name; [done|]. done.
Qed.

Lemma makedirs_well_formed (rname : list string) (s : filesystem) r s' :
  well_formed s → makedirs_from_leaf rname true s = (r, s') → well_formed s'.
Proof.
  revert s r s'. induction rname as [|tail rhead IH]; intros s r s' Hwf Hrun.
  { simpl in Hrun. by eapply mkdir_exist_ok_well_formed. }
  apply makedirs_cons_inv in Hrun
    as [[_ Hmk]|[(_ & _ & s1 & Hrec & Hmk)|(_ & _ & e & _ & Hrec)]].
  - by eapply mkdir_exist_ok_well_formed.
  - eapply mkdir_exist_ok_well_formed; [|done]. by eapply IH.
  - by eapply IH.
Qed.

Lemma open_append_close_well_formed (name : path) (s : filesystem) r s' :
  well_formed s → open_append_close name s = (r, s') → well_formed s'.
Proof.
  unfold open_append_close. intros Hwf Hrun.
  destruct (lookup_path s (dirname name)) as [[|c]|] eqn:Hparent; simplify_eq; try done.
  destruct (lookup_path s name) as [[|c]|] eqn:Hname; simplify_eq; try done.
  apply well_formed_insert; try done. destruct name; [done|]. done.
Qed.

Lemma for_each_well_formed {A : Type}
    (body : A → filesystem → outcome () * filesystem) (l : list A)
    (s : filesystem) r s' :
  (∀ x s r s', well_formed s → body x s = (r, s') → well_formed s') →
  well_formed s → for_each body l s = (r, s') → well_formed s'.
Proof.
  intros Hbody. revert s. induction l as [|x l IH]; intros s Hwf Hrun.
  { simpl in Hrun. by simplify_eq. }
  simpl in Hrun. destruct (body x s) as [[[]|e] s1] eqn:Hx.
  - eapply IH; [|done]. by eapply Hbody.
  - simplify_eq. by eapply Hbody.
Qed.

(** X11: [create_folder_structure] keeps the file system a tree, whether it
    returns or raises half-way: every directory and file it has created by
    then lies in a directory. *)
Theorem create_folder_structure_well_formed (base_path : path) (s : filesystem) :
  well_formed s → well_formed (create_folder_structure base_path s).2.
Proof.
  intros Hwf. unfold create_folder_structure.
  destruct (for_each (λ folder, os_makedirs (os_path_join base_path folder) true)
              folders s) as [r1 s1] eqn:H1.
  assert (Hwf1 : well_formed s1).
  { eapply for_each_well_formed; [|done|exact H1].
    intros x s0 r0 s0' Hwf0 Hx. unfold os_makedirs in Hx.
    by eapply makedirs_well_formed. }
  destruct r1 as [[]|e]; [|by simpl]. cbv beta iota.
  destruct (for_each (λ file, open_append_close (os_path_join base_path file))
              files s1) as [r2 s2] eqn:H2. simpl.
  eapply for_each_well_formed; [|done|exact H2].
  intros x s0 r0 s0' Hwf0 Hx. cbv beta in Hx.
  by eapply open_append_close_well_formed.
Qed.

Lemma well_formed_empty : well_formed ∅.
Proof. intros p n Hp. by rewrite lookup_empty in Hp. Qed.

Lemma create_folder_structure_well_formed_witness :
  well_formed (create_folder_structure ["project"] ∅).2.
Proof.
  apply (create_folder_structure_well_formed ["project"] ∅), well_formed_empty.
Defined.

(** ** Exactly when the script goes through *)

(** In a tree, everything above an existing path is a directory. *)
Lemma well_formed_above (s : filesystem) (p q : path) :
  well_formed s → is_Some (lookup_path s p) →
  q `prefix_of` p → q ≠ p → lookup_path s q = Some Dir.
Proof.
  intros Hwf Hp [k ->]. revert Hp. induction k as [|x k IH] using rev_ind.
  { intros _ Hne. by rewrite app_nil_r in Hne. }
  intros [n Hn] _. rewrite app_assoc, lookup_path_snoc in Hn.
  apply Hwf in Hn. rewrite dirname_snoc in Hn.
  destruct (decide (k = [])) as [->|Hk]; [by rewrite app_nil_r in Hn|].
  apply IH; [by eexists|].
  intros E. apply Hk. apply (app_inv_head q). by rewrite app_nil_r.
Qed.

Lemma makedirs_loop_returned (base_path : path) (l : list string)
    (s s1 : filesystem) :
  for_each (λ folder, os_makedirs (os_path_join base_path folder) true) l s
  = (Return (), s1) →
  ∀ folder, folder ∈ l → lookup_path s1 (os_path_join base_path folder) = Some Dir.
Proof.
  revert s. induction l as [|x l IH]; intros s Hrun folder Hin.
  { by apply elem_of_nil in Hin. }
  simpl in Hrun.
  destruct (os_makedirs (os_path_join base_path x) true s) as [[[]|e] s'] eqn:Hx;
    [|done].
  apply elem_of_cons in Hin as [->|Hin]; [|by eapply IH].
  apply makedirs_returned in Hx as [Hdir _]. rewrite rev_involutive in Hdir.
  eapply lookup_path_mono; [|done].
  pose proof (rep_grows _ (for_each_repeatable
    (λ folder, os_makedirs (os_path_join base_path folder) true) l
    (λ folder, makedirs_repeatable _)) s') as Hg.
  by rewrite Hrun in Hg.
Qed.

Lemma open_loop_returned (base_path : path) (l : list string)
    (s s2 : filesystem) :
  for_each (λ file, open_append_close (os_path_join base_path file)) l s
  = (Return (), s2) →
  ∀ file, file ∈ l →
    ∃ content, lookup_path s2 (os_path_join base_path file) = Some (File content).
Proof.
  revert s. induction l as [|x l IH]; intros s Hrun file Hin.
  { by apply elem_of_nil in Hin. }
  simpl in Hrun.
  destruct (open_append_close (os_path_join base_path x) s) as [[[]|e] s'] eqn:Hx;
    [|done].
  apply elem_of_cons in Hin as [->|Hin]; [|by eapply IH].
  apply open_append_close_returned in Hx as [content Hc]. exists content.
  eapply lookup_path_mono; [|done].
  pose proof (rep_grows _ (for_each_repeatable
    (λ file, open_append_close (os_path_join base_path file)) l
    (λ file, open_append_close_repeatable _)) s') as Hg.
  by rewrite Hrun in Hg.
Qed.

Lemma create_folder_structure_returns (base_path : path) (s : filesystem) :
  unobstructed base_path s →
  ∃ s', create_folder_structure base_path s = (Return (), s').
Proof.
  intros [Hfold Hfile].
  destruct (makedirs_loop base_path folders s Hfold) as (s1 & Hloop1 & Hch1 & Hdirs).
  assert (Hnames : ∀ file, file ∈ files → os_path_join base_path file ≠ []).
  { intros file Hin E. specialize (Hfile file Hin). by rewrite E in Hfile. }
  destruct (open_loop base_path files s1) as (s2 & Hloop2 & _).
  { intros file Hin. split.
    - pose proof files_components as Hne. rewrite Forall_forall in Hne.
      unfold os_path_join. rewrite dirname_join by by apply Hne.
      pose proof files_directories as Hd. rewrite Forall_forall in Hd.
      specialize (Hd file Hin). apply Exists_exists in Hd as (folder & Hfin & [->| ->]).
      + by apply Hdirs.
      + pose proof folders_components as Hne'. rewrite Forall_forall in Hne'.
        rewrite <- dirname_join by by apply Hne'.
        destruct (Hdirs folder Hfin) as [_ [n Hn]].
        assert (Hnofile : os_path_isfile s1
                  (dirname (os_path_join base_path folder)) = false).
        { eapply isfile_after_dirs; [exact Hch1|].
          eapply Hfold; [done|]. apply dirname_prefix. }
        unfold os_path_isfile, os_path_join in *. rewrite Hn in Hnofile.
        by destruct n.
    - specialize (Hfile file Hin). unfold os_path_isdir in *.
      rewrite lookup_path_ne in * by by apply Hnames.
      destruct (Hch1 (os_path_join base_path file))
        as [->|(_ & _ & folder & Hfin & Hpre)]; [done|].
      by apply no_file_above_folder in Hpre. }
  exists s2. unfold create_folder_structure. by rewrite Hloop1.
Qed.

(** X12: In a file system that is a tree, [create_folder_structure] returns
    normally if and only if nothing is in its way: no regular file at or
    above a listed directory, and no directory at a placeholder path.  In
    every other case it raises. *)
Theorem create_folder_structure_returns_iff (base_path : path) (s : filesystem) :
  well_formed s →
  ((create_folder_structure base_path s).1 = Return () ↔ unobstructed base_path s).
Proof.
  intros Hwf. split.
  2:{ intros Hun. destruct (create_folder_structure_returns _ _ Hun) as [s' ->]. done. }
  intros Hret.
  pose proof (rep_grows _ (create_folder_structure_repeatable base_path) s) as Hsub.
  revert Hret Hsub. unfold create_folder_structure.
  destruct (for_each (λ folder, os_makedirs (os_path_join base_path folder) true)
              folders s) as [r1 s1] eqn:H1.
  assert (Hwf1 : well_formed s1).
  { eapply for_each_well_formed; [|done|exact H1].
    intros x s0 r0 s0' Hwf0 Hx. unfold os_makedirs in Hx.
    by eapply makedirs_well_formed. }
  assert (Hsub1 : s ⊆ s1).
  { pose proof (rep_grows _ (for_each_repeatable
      (λ folder, os_makedirs (os_path_join base_path folder) true) folders
      (λ folder, makedirs_repeatable _)) s) as Hg.
    by rewrite H1 in Hg. }
  destruct r1 as [[]|e]; [|done]. cbv beta iota.
  destruct (for_each (λ file, open_append_close (os_path_join base_path file))
              files s1) as [r2 s2] eqn:H2. simpl.
  intros -> Hsub. split.
  - intros folder q Hin Hpre. unfold os_path_isfile.
    destruct (lookup_path s q) as [[|c]|] eqn:Hq; try done. exfalso.
    pose proof (lookup_path_mono _ _ _ _ Hsub1 Hq) as Hq1.
    pose proof (makedirs_loop_returned _ _ _ _ H1 folder Hin) as Hdir.
    destruct (decide (q = os_path_join base_path folder)) as [->|Hne].
    + congruence.
    + rewrite (well_formed_above s1 (os_path_join base_path folder) q) in Hq1;
        try done; by eexists.
  - intros file Hin. unfold os_path_isdir.
    destruct (lookup_path s (os_path_join base_path file)) as [[|c]|] eqn:Hf;
      try done. exfalso.
    pose proof (lookup_path_mono _ _ _ _ Hsub Hf) as Hf2.
    destruct (open_loop_returned _ _ _ _ H2 file Hin) as [content Hc]. congruence.
Qed.

Lemma create_folder_structure_returns_iff_witness :
  (create_folder_structure ["project"] ∅).1 = Return () ↔ unobstructed ["project"] ∅.
Proof.
  apply (create_folder_structure_returns_iff ["project"] ∅), well_formed_empty.
Defined.

End ScaffoldFacts.

(** * Facts about the data-processing classes *)
Module PipelineFacts.
Import Pipeline.
Local Open Scope list_scope.

Example clean_example_data :
  clean_data example_data
  = {| columns := ["age"; "salary"];
       rows := [ (0, [Num 25; Num 50000]); (1, [Num 30; Num 60000]);
                 (2, [Num 35; Num 70000]); (3, [Num 40; Num 80000]) ] |}.
Proof. reflexivity. Qed.

(** ** Dropping rows with missing values *)

Lemma frame_eq (df1 df2 : Frame) :
  columns df1 = columns df2 → rows df1 = rows df2 → df1 = df2.
Proof. destruct df1, df2. simpl. by intros -> ->. Qed.

Lemma filter_fixed {A : Type} (P : A → Prop) `{!∀ x, Decision (P x)} (l : list A) :
  (∀ x, x ∈ l → P x) → filter P l = l.
Proof.
  induction l as [|x l IH]; intros HP; [done|].
  rewrite filter_cons_True by (apply HP; by left).
  f_equal. apply IH. intros y Hy. apply HP. by right.
Qed.

Lemma dropna_fixed (df : Frame) :
  (∀ r, r ∈ rows df → NaN ∉ r.2) → dropna df = df.
Proof.
  intros Hc. apply frame_eq; [done|]. simpl. by apply filter_fixed.
Qed.

Lemma dropna_complete (df : Frame) (r : nat * list cell) :
  r ∈ rows (dropna df) → NaN ∉ r.2.
Proof. simpl. intros Hr. by apply list_elem_of_filter in Hr as [? _]. Qed.

Lemma dropna_rectangular (df : Frame) : rectangular df → rectangular (dropna df).
Proof.
  unfold rectangular. simpl. rewrite !Forall_forall. intros Hr r Hin.
  apply Hr. by apply list_elem_of_filter in Hin as [_ ?].
Qed.

(** ** Assigning a column *)

Lemma setitem_complete (key : string) (value : cell) (df : Frame) :
  value ≠ NaN → (∀ r, r ∈ rows df → NaN ∉ r.2) →
  ∀ r, r ∈ rows (setitem key value df) → NaN ∉ r.2.
Proof.
  intros Hv Hc r. unfold setitem. destruct (decide (key ∈ columns df)); simpl.
  - intros (r0 & -> & Hr0)%list_elem_of_fmap. simpl.
    intros (i & x & Hx & Hi)%elem_of_lookup_imap.
    destruct (decide (columns df !! i = Some key)); [done|].
    apply (Hc r0 Hr0). rewrite Hx. by eapply list_elem_of_lookup_2.
  - intros (r0 & -> & Hr0)%list_elem_of_fmap. simpl.
    rewrite elem_of_app, list_elem_of_singleton.
    intros [Hin|?]; [|done]. by apply (Hc r0 Hr0).
Qed.

Lemma setitem_rectangular (key : string) (value : cell) (df : Frame) :
  rectangular df → rectangular (setitem key value df).
Proof.
  unfold rectangular, setitem. rewrite !Forall_forall. intros Hr.
  destruct (decide (key ∈ columns df)); simpl.
  - intros r (r0 & -> & Hr0)%list_elem_of_fmap. simpl.
    rewrite length_imap. by apply Hr.
  - intros r (r0 & -> & Hr0)%list_elem_of_fmap. simpl.
    rewrite !length_app. simpl. by rewrite (Hr r0 Hr0).
Qed.

Lemma setitem_column (key : string) (value : cell) (df : Frame) :
  key ∈ columns (setitem key value df).
Proof.
  unfold setitem. destruct (decide (key ∈ columns df)); simpl; [done|].
  apply elem_of_app. right. by apply list_elem_of_singleton.
Qed.

(** In a rectangular frame, after [df[key] = value] every row holds
    [value] under every column labelled [key]. *)
Lemma setitem_cells (key : string) (value : cell) (df : Frame) :
  rectangular df →
  ∀ r i, r ∈ rows (setitem key value df) →
         columns (setitem key value df) !! i = Some key →
         r.2 !! i = Some value.
Proof.
  unfold rectangular, setitem. rewrite Forall_forall. intros Hr r i.
  destruct (decide (key ∈ columns df)) as [Hin|Hnin]; simpl.
  - intros (r0 & -> & Hr0)%list_elem_of_fmap Hi. simpl.
    rewrite list_lookup_imap.
    assert (Hlt : i < length r0.2).
    { rewrite (Hr r0 Hr0). by eapply lookup_lt_Some. }
    destruct (lookup_lt_is_Some_2 _ _ Hlt) as [x ->]. simpl.
    by rewrite decide_True.
  - intros (r0 & -> & Hr0)%list_elem_of_fmap Hi. simpl.
    destruct (decide (i < length (columns df))) as [Hlt|Hge].
    + rewrite lookup_app_l in Hi by done.
      exfalso. apply Hnin. by eapply list_elem_of_lookup_2.
    + assert (i = length (columns df)) as ->.
      { apply lookup_lt_Some in Hi. rewrite length_app in Hi. simpl in Hi. lia. }
      rewrite <- (Hr r0 Hr0).
      rewrite lookup_app_r by lia. by rewrite Nat.sub_diag.
Qed.

(** Assigning what is there changes nothing. *)
Lemma setitem_fixed (key : string) (value : cell) (df : Frame) :
  key ∈ columns df →
  (∀ r i, r ∈ rows df → columns df !! i = Some key → r.2 !! i = Some value) →
  setitem key value df = df.
Proof.
  intros Hin Hcells. unfold setitem. rewrite decide_True by done.
  apply frame_eq; [done|]. simpl.
  rewrite <- (list_fmap_id (rows df)) at 2. apply list_fmap_ext.
  intros j [label row] Hj. simpl. f_equal.
  apply list_eq. intros i. rewrite list_lookup_imap.
  destruct (row !! i) as [x|] eqn:Hx; [|done]. simpl.
  destruct (decide (columns df !! i = Some key)) as [Hi|]; [|done].
  apply list_elem_of_lookup_2 in Hj.
  specialize (Hcells _ i Hj Hi). simpl in Hcells. congruence.
Qed.

(** ** [CSVDataProcessor] *)

(** X14: [process_data] needs data: on a processor that has read nothing it
    raises the [AttributeError] of [None.dropna] and leaves the processor
    as it was; once [read_data] has returned, it returns. *)
Theorem process_data_needs_data (read_csv : string → result Frame)
    (self : CSVDataProcessor) (source : string) :
  process_data init
  = (Raised (AttributeError "'NoneType' object has no attribute 'dropna'"), init) ∧
  ((process_data self).1 = Done () ↔ get_data self ≠ None) ∧
  ((read_data read_csv self source).1 = Done () →
   (process_data (read_data read_csv self source).2).1 = Done ()).
Proof.
  split; [done|]. split.
  - unfold process_data, _clean_data, _transform_data, get_data.
    destruct (_data self); simpl; split; done.
  - unfold read_data. destruct (read_csv source); [|done]. done.
Qed.

(** X15: After [process_data] on data that has been read, no value is
    missing, there is a column [processed], and every row holds [True]
    under it; and processing a second time changes nothing. *)
Theorem process_data_processed (self : CSVDataProcessor) (df : Frame) :
  get_data self = Some df → rectangular df →
  ∃ df', process_data self = (Done (), {| _data := Some df' |}) ∧
         rectangular df' ∧
         "processed" ∈ columns df' ∧
         (∀ r, r ∈ rows df' → NaN ∉ r.2) ∧
         (∀ r i, r ∈ rows df' → columns df' !! i = Some "processed" →
                 r.2 !! i = Some (Bool true)) ∧
         process_data {| _data := Some df' |} = (Done (), {| _data := Some df' |}).
Proof.
  unfold get_data. intros Hdata Hrect.
  exists (setitem "processed" (Bool true) (dropna df)).
  assert (Hclean : ∀ r, r ∈ rows (setitem "processed" (Bool true) (dropna df)) →
                        NaN ∉ r.2).
  { apply setitem_complete; [done|]. apply dropna_complete. }
  assert (Hcells : ∀ r i,
            r ∈ rows (setitem "processed" (Bool true) (dropna df)) →
            columns (setitem "processed" (Bool true) (dropna df)) !! i
            = Some "processed" →
            r.2 !! i = Some (Bool true)).
  { apply setitem_cells. by apply dropna_rectangular. }
  split; [|split; [|split; [|split; [|split]]]]; try done.
  - unfold process_data, _clean_data, _transform_data. by rewrite Hdata.
  - by apply setitem_rectangular, dropna_rectangular.
  - apply setitem_column.
  - unfold process_data, _clean_data, _transform_data. simpl.
    rewrite dropna_fixed by done.
    rewrite setitem_fixed; [done|apply setitem_column|done].
Qed.

Lemma example_data_rectangular : rectangular example_data.
Proof. repeat constructor. Qed.

Lemma process_data_processed_witness :
  ∃ df', process_data {| _data := Some example_data |}
         = (Done (), {| _data := Some df' |}) ∧
         rectangular df' ∧
         "processed" ∈ columns df' ∧
         (∀ r, r ∈ rows df' → NaN ∉ r.2) ∧
         (∀ r i, r ∈ rows df' → columns df' !! i = Some "processed" →
                 r.2 !! i = Some (Bool true)) ∧
         process_data {| _data := Some df' |} = (Done (), {| _data := Some df' |}).
Proof.
  apply (process_data_processed {| _data := Some example_data |} example_data).
  - reflexivity.
  - apply example_data_rectangular.
Defined.

End PipelineFacts.

(** * Facts about the abstract classes *)
Module AbstractFacts.
Import Abstract.
Local Open Scope list_scope.

(** [dp = ExcelDataProcessor()]: the error the notebook records. *)
Example instantiate_ExcelDataProcessor :
  instantiate ExcelDataProcessor
  = Raised (TypeError "Can't instantiate abstract class ExcelDataProcessor without an implementation for abstract methods 'process_data', 'read_data'").
Proof. vm_compute. reflexivity. Qed.

Example instantiate_CSVDataProcessor :
  instantiate CSVDataProcessor = Done {| class_of := CSVDataProcessor |}.
Proof. vm_compute. reflexivity. Qed.

Example instantiate_DataProcessor :
  instantiate DataProcessor
  = Raised (TypeError "Can't instantiate abstract class DataProcessor without an implementation for abstract methods 'process_data', 'read_data'").
Proof. vm_compute. reflexivity. Qed.

Lemma bound_name (body : list (string * definition)) (n : string) (d : definition) :
  bound body n = Some d → n ∈ body.*1.
Proof.
  revert d. induction body as [|[m d'] body IH]; intros d; simpl; [done|].
  destruct (bound body n) as [d''|].
  - intros _. right. by apply (IH d'').
  - destruct (decide (m = n)) as [->|]; [|done]. intros _. by left.
Qed.

(** An abstract name of a class resolves to an abstract method. *)
Lemma abstractmethods_getattr (cls : pyclass) (n : string) :
  n ∈ abstractmethods cls → getattr cls n = Some AbstractMethod.
Proof.
  destruct cls as [|name base body]; simpl; [set_solver|].
  rewrite elem_of_union, !elem_of_filter. intros [[Hb _]|[Hg _]].
  - by rewrite Hb.
  - done.
Qed.

Lemma instantiate_done_iff (cls : pyclass) :
  (∃ obj, instantiate cls = Done obj) ↔ abstractmethods cls = ∅.
Proof.
  unfold instantiate.
  destruct (merge_sort string_le (elements (abstractmethods cls))) as [|n l] eqn:Hs.
  - split; [intros _|by eexists].
    apply leibniz_equiv, elements_empty_iff, Permutation_nil_r.
    by rewrite <- (merge_sort_Permutation string_le), Hs.
  - split; [by intros [obj ?]|]. intros Hempty. exfalso.
    rewrite Hempty, elements_empty in Hs. done.
Qed.

(** A class with a base class can be instantiated exactly when its body
    binds no name to an abstract method and binds every abstract name of
    the base class to a concrete function. *)
Lemma derived_instantiable (name : string) (base : pyclass)
    (body : list (string * definition)) :
  (∃ obj, instantiate (Class name base body) = Done obj) ↔
  (∀ n, bound body n ≠ Some AbstractMethod) ∧
  (∀ n, n ∈ abstractmethods base → bound body n = Some Concrete).
Proof.
  rewrite instantiate_done_iff. simpl. split.
  - intros Hempty. split.
    + intros n Hn.
      assert (n ∈ (∅ : gset string)) as Hin; [|set_solver].
      rewrite <- Hempty. apply elem_of_union. left. apply elem_of_filter.
      split; [done|]. apply elem_of_list_to_set. by eapply bound_name.
    + intros n Hn. destruct (bound body n) as [[|]|] eqn:Hb; [done| |].
      * assert (n ∈ (∅ : gset string)) as Hin; [|set_solver].
        rewrite <- Hempty. apply elem_of_union. left. apply elem_of_filter.
        split; [done|]. apply elem_of_list_to_set. by eapply bound_name.
      * assert (n ∈ (∅ : gset string)) as Hin; [|set_solver].
        rewrite <- Hempty. apply elem_of_union. right. apply elem_of_filter.
        split; [|done]. rewrite Hb. by apply abstractmethods_getattr.
  - intros [Hown Hbase]. apply set_eq. intros n. split; [|set_solver].
    rewrite elem_of_union, !elem_of_filter. intros [[Hb _]|[Hg Hn]].
    + by apply Hown in Hb.
    + rewrite (Hbase n Hn) in Hg. done.
Qed.

Lemma abstractmethods_ABC : abstractmethods ABC = ∅.
Proof.
  apply set_eq. intros n. simpl.
  rewrite elem_of_union, !elem_of_filter.
  split; [|by intros ?%elem_of_empty].
  intros [[_ Hin]|[_ Hin]]; by apply elem_of_empty in Hin.
Qed.

Lemma abstractmethods_DataProcessor (n : string) :
  n ∈ abstractmethods DataProcessor ↔ n = "read_data" ∨ n = "process_data".
Proof.
  change (abstractmethods DataProcessor) with
    (filter (λ n, bound [("read_data", AbstractMethod); ("process_data", AbstractMethod)] n
                  = Some AbstractMethod)
       (list_to_set ["read_data"; "process_data"] : gset string)
     ∪ filter (λ n, getattr DataProcessor n = Some AbstractMethod) (abstractmethods ABC)).
  rewrite abstractmethods_ABC, elem_of_union, !elem_of_filter, elem_of_list_to_set.
  rewrite !elem_of_cons, elem_of_nil. split.
  - intros [[_ [?|[?|[]]]]|[_ []%elem_of_empty]]; auto.
  - intros [->| ->]; left; (split; [reflexivity|auto]).
Qed.

Lemma abstractmethods_PipelineDataProcessor (n : string) :
  n ∈ abstractmethods PipelineDataProcessor ↔ n = "read_data" ∨ n = "process_data".
Proof.
  change (abstractmethods PipelineDataProcessor) with
    (filter (λ n, bound [("__init__", Concrete); ("read_data", AbstractMethod);
                         ("process_data", AbstractMethod); ("get_data", Concrete)] n
                  = Some AbstractMethod)
       (list_to_set ["__init__"; "read_data"; "process_data"; "get_data"] : gset string)
     ∪ filter (λ n, getattr PipelineDataProcessor n = Some AbstractMethod)
         (abstractmethods ABC)).
  rewrite abstractmethods_ABC, elem_of_union, !elem_of_filter, elem_of_list_to_set.
  rewrite !elem_of_cons, elem_of_nil. split.
  - intros [[Hb [->|[?|[?|[->|[]]]]]]|[_ []%elem_of_empty]]; auto; done.
  - intros [->| ->]; left; (split; [reflexivity|auto]).
Qed.

Example instantiate_JSONDataProcessor :
  instantiate JSONDataProcessor = Done {| class_of := JSONDataProcessor |}.
Proof. vm_compute. reflexivity. Qed.

(** X16: A class statement whose only base class is one of the two abstract
    [DataProcessor] classes (a direct subclass: the notebook's
    [ExcelDataProcessor] and [CSVDataProcessor], the [JSONDataProcessor] of
    its exercise) and whose body consists of method definitions can be
    instantiated if and only if the body defines both [read_data] and
    [process_data] without [@abstractmethod] and defines no abstract
    method; otherwise calling the class raises [TypeError]. *)
Theorem DataProcessor_subclass_instantiable (base : pyclass) (name : string)
    (body : list (string * definition)) :
  base = DataProcessor ∨ base = PipelineDataProcessor →
  ((∃ obj, instantiate (Class name base body) = Done obj) ↔
   bound body "read_data" = Some Concrete ∧
   bound body "process_data" = Some Concrete ∧
   ∀ n, bound body n ≠ Some AbstractMethod) ∧
  ((∃ obj, instantiate (Class name base body) = Done obj) ∨
   (∃ msg, instantiate (Class name base body) = Raised (TypeError msg))).
Proof.
  intros Hbase.
  assert (Habs : ∀ n, n ∈ abstractmethods base ↔ n = "read_data" ∨ n = "process_data").
  { destruct Hbase as [->| ->];
      [apply abstractmethods_DataProcessor|apply abstractmethods_PipelineDataProcessor]. }
  split.
  - rewrite derived_instantiable. split.
    + intros [Hown Hb]. split; [|split; [|done]].
      * apply Hb, Habs. by left.
      * apply Hb, Habs. by right.
    + intros (Hr & Hp & Hown). split; [done|].
      intros n [->| ->]%Habs; done.
  - unfold instantiate.
    destruct (merge_sort _ _); [left|right]; by eexists.
Qed.

Lemma DataProcessor_subclass_instantiable_witness :
  ((∃ obj, instantiate JSONDataProcessor = Done obj) ↔
   bound [("read_data", Concrete); ("process_data", Concrete);
          ("_clean_data", Concrete); ("_transform_data", Concrete)] "read_data"
   = Some Concrete ∧
   bound [("read_data", Concrete); ("process_data", Concrete);
          ("_clean_data", Concrete); ("_transform_data", Concrete)] "process_data"
   = Some Concrete ∧
   ∀ n, bound [("read_data", Concrete); ("process_data", Concrete);
               ("_clean_data", Concrete); ("_transform_data", Concrete)] n
        ≠ Some AbstractMethod) ∧
  ((∃ obj, instantiate JSONDataProcessor = Done obj) ∨
   (∃ msg, instantiate JSONDataProcessor = Raised (TypeError msg))).
Proof.
  apply (DataProcessor_subclass_instantiable PipelineDataProcessor "JSONDataProcessor").
  by right.
Defined.

End AbstractFacts.
